(** * arc-ai: the command layer ([internal/cmd/root.go])

    A shallow embedding of the two commands of arc-ai ([commit] and [ask])
    and of the provider dispatcher [askAI] they share.

    Go strings are byte strings: they are modelled by [string], whose
    elements are the 256 values of [ascii].  Go errors are values returned
    next to the result, and are modelled the same way: a function returning
    [(T, error)] returns a pair [T * option error], [None] being [nil].

    Everything the commands do to the outside (probing the executable path,
    running a subprocess, reading standard input, printing) goes through a
    state monad over [Process], which holds what is left of standard input
    and the list of the effects performed so far, oldest first.  What the
    outside answers is held by [Env].  The context [ctx] of the commands
    only carries cancellation: a subprocess it kills shows as a subprocess
    that returns an error. *)

From Stdlib Require Import String Ascii List Bool Arith NArith Lia.
From ExtLib Require Import Structures.Monad Structures.MonadState.
From ExtLib Require Import Data.Monads.StateMonad.
Import ListNotations.
Import MonadNotation.
Local Open Scope monad_scope.
Local Open Scope list_scope.
Local Open Scope string_scope.

(** ** Go's [unicode/utf8], [unicode] and [strings] packages

    A Go string is a sequence of bytes, here a [list ascii] where the
    functions index and slice it ([s[i:]] is [skipn i s], [s[:i]] is
    [firstn i s]) and a [string] elsewhere.  A rune is its code point. *)

Module utf8.

Definition RuneSelf : N := 0x80.
Definition RuneError : N := 0xFFFD.

Definition byte (c : ascii) : N := N_of_ascii c.

(** What the table [first] says of a first byte: ASCII, invalid, or the
    lead of a sequence of [sz] bytes whose second byte lies in [lo..hi]
    (the [acceptRanges]). *)
Inductive firstInfo : Type :=
| AS
| XX
| Lead (sz : nat) (lo hi : N).

Definition first (c : ascii) : firstInfo :=
  let b := byte c in
  if (b <? 0x80)%N then AS
  else if (b <? 0xC2)%N then XX
  else if (b <=? 0xDF)%N then Lead 2 0x80 0xBF
  else if (b =? 0xE0)%N then Lead 3 0xA0 0xBF
  else if (b =? 0xED)%N then Lead 3 0x80 0x9F
  else if (b <=? 0xEF)%N then Lead 3 0x80 0xBF
  else if (b =? 0xF0)%N then Lead 4 0x90 0xBF
  else if (b <=? 0xF3)%N then Lead 4 0x80 0xBF
  else if (b =? 0xF4)%N then Lead 4 0x80 0x8F
  else XX.

Definition outside (lo hi : N) (c : ascii) : bool :=
  ((byte c <? lo) || (hi <? byte c))%N.

(** [utf8.DecodeRuneInString]: the first rune of [s] and its width in
    bytes; [(RuneError, 0)] for the empty string, [(RuneError, 1)] for an
    encoding that is invalid or cut short. *)
Definition DecodeRuneInString (s : list ascii) : N * nat :=
  match s with
  | [] => (RuneError, 0)
  | s0 :: t =>
      match first s0 with
      | AS => (byte s0, 1)
      | XX => (RuneError, 1)
      | Lead sz lo hi =>
          if (List.length s <? sz)%nat then (RuneError, 1)
          else
            match t with
            | [] => (RuneError, 1)
            | s1 :: t1 =>
                if outside lo hi s1 then (RuneError, 1)
                else if (sz <=? 2)%nat then
                  (N.lor (N.shiftl (N.land (byte s0) 0x1F) 6)
                         (N.land (byte s1) 0x3F), 2)
                else
                  match t1 with
                  | [] => (RuneError, 1)
                  | s2 :: t2 =>
                      if outside 0x80 0xBF s2 then (RuneError, 1)
                      else if (sz <=? 3)%nat then
                        (N.lor (N.shiftl (N.land (byte s0) 0x0F) 12)
                           (N.lor (N.shiftl (N.land (byte s1) 0x3F) 6)
                                  (N.land (byte s2) 0x3F)), 3)
                      else
                        match t2 with
                        | [] => (RuneError, 1)
                        | s3 :: _ =>
                            if outside 0x80 0xBF s3 then (RuneError, 1)
                            else
                              (N.lor (N.shiftl (N.land (byte s0) 0x07) 18)
                                 (N.lor (N.shiftl (N.land (byte s1) 0x3F) 12)
                                    (N.lor (N.shiftl (N.land (byte s2) 0x3F) 6)
                                           (N.land (byte s3) 0x3F))), 4)
                        end
                  end
            end
      end
  end.

(** [utf8.RuneStart]: the byte is no continuation byte. *)
Definition RuneStart (c : ascii) : bool :=
  negb (N.land (byte c) 0xC0 =? 0x80)%N.

(** The backward search of [DecodeLastRuneInString]: the bytes of [s]
    from the nearest rune start before its last byte, when there is one
    among the [UTFMax] last bytes.  When there is none Go decodes from
    further back, never reaches the end, and falls on [RuneError, 1]. *)
Definition lastStart (s : list ascii) : option (list ascii) :=
  match rev s with
  | c :: c1 :: r =>
      if RuneStart c1 then Some [c1; c]
      else match r with
           | c2 :: r2 =>
               if RuneStart c2 then Some [c2; c1; c]
               else match r2 with
                    | c3 :: _ =>
                        if RuneStart c3 then Some [c3; c2; c1; c] else None
                    | [] => None
                    end
           | [] => None
           end
  | _ => None
  end.

(** [utf8.DecodeLastRuneInString]: the last rune of [s] and its width. *)
Definition DecodeLastRuneInString (s : list ascii) : N * nat :=
  match rev s with
  | [] => (RuneError, 0)
  | c :: _ =>
      if (byte c <? RuneSelf)%N then (byte c, 1)
      else
        match lastStart s with
        | Some seg =>
            let (r, size) := DecodeRuneInString seg in
            if (size =? List.length seg)%nat then (r, size) else (RuneError, 1)
        | None => (RuneError, 1)
        end
  end.

End utf8.

Module unicode.

Definition MaxLatin1 : N := 0xFF.

(** [unicode.IsSpace]: the Latin-1 white space, and the rest of the
    Unicode property [White_Space]. *)
Definition IsSpace (r : N) : bool :=
  if (r <=? MaxLatin1)%N then
    ((0x09 <=? r) && (r <=? 0x0D) || (r =? 0x20) || (r =? 0x85) || (r =? 0xA0))%N
  else
    ((r =? 0x1680) || (0x2000 <=? r) && (r <=? 0x200A) || (r =? 0x2028)
     || (r =? 0x2029) || (r =? 0x202F) || (r =? 0x205F) || (r =? 0x3000))%N.

End unicode.

Module strings.

(** The six bytes Go's [asciiSpace] table marks as white space:
    ['\t'], ['\n'], ['\v'], ['\f'], ['\r'] and [' ']. *)
Definition asciiSpace (c : ascii) : bool :=
  let n := N_of_ascii c in
  ((9 <=? n) && (n <=? 13) || (n =? 32))%N.

(** [unicode.ToLower] on a byte below [utf8.RuneSelf]: ['A'..'Z'] move
    down by 32. *)
Definition toLowerByte (c : ascii) : ascii :=
  let n := N_of_ascii c in
  if ((65 <=? n) && (n <=? 90))%N then ascii_of_N (n + 32) else c.

(** [strings.ToLower], which is Go's on ASCII text.  On a string with
    bytes outside ASCII Go maps every rune through [unicode.ToLower];
    here those bytes stay as they are.  No rune outside ASCII folds to
    ['y'], ['e'] or ['s'], nor to or from white space, so the test the
    confirmer makes on the folded response is not affected. *)
Fixpoint ToLower (s : string) : string :=
  match s with
  | EmptyString => EmptyString
  | String c r => String (toLowerByte c) (ToLower r)
  end.

(** The loop [for i, r := range s] of [indexFunc], at index [i]; [skip]
    counts the bytes left of the rune under way. *)
Fixpoint indexLoop (f : N -> bool) (truth : bool) (s : list ascii)
    (skip i : nat) : option nat :=
  match s with
  | [] => None
  | _ :: r =>
      match skip with
      | S k => indexLoop f truth r k (S i)
      | O =>
          let (rn, size) := utf8.DecodeRuneInString s in
          if Bool.eqb (f rn) truth then Some i
          else indexLoop f truth r (size - 1) (S i)
      end
  end.

(** [indexFunc]: the index of the first rune [r] with [f r = truth];
    [None] is Go's [-1]. *)
Definition indexFunc (s : list ascii) (f : N -> bool) (truth : bool)
  : option nat :=
  indexLoop f truth s 0 0.

(** The loop [for i := len(s); i > 0; ...] of [lastIndexFunc]; every turn
    takes at least one byte off [i], so [len(s)] turns are enough. *)
Fixpoint lastIndexLoop (f : N -> bool) (truth : bool) (s : list ascii)
    (fuel i : nat) : option nat :=
  match fuel with
  | O => None
  | S fuel' =>
      if (i =? 0)%nat then None
      else
        let (r, size) := utf8.DecodeLastRuneInString (firstn i s) in
        let i := i - size in
        if Bool.eqb (f r) truth then Some i
        else lastIndexLoop f truth s fuel' i
  end.

Definition lastIndexFunc (s : list ascii) (f : N -> bool) (truth : bool)
  : option nat :=
  lastIndexLoop f truth s (List.length s) (List.length s).

(** [strings.TrimLeftFunc]. *)
Definition TrimLeftFunc (s : list ascii) (f : N -> bool) : list ascii :=
  match indexFunc s f false with
  | None => []
  | Some i => skipn i s
  end.

(** [strings.TrimRightFunc]. *)
Definition TrimRightFunc (s : list ascii) (f : N -> bool) : list ascii :=
  match lastIndexFunc s f false with
  | Some i =>
      if (utf8.RuneSelf <=? utf8.byte (nth i s zero))%N then
        firstn (i + snd (utf8.DecodeRuneInString (skipn i s))) s
      else firstn (i + 1) s
  | None => []
  end.

(** [strings.TrimFunc]. *)
Definition TrimFunc (s : list ascii) (f : N -> bool) : list ascii :=
  TrimRightFunc (TrimLeftFunc s f) f.

(** The second loop of [TrimSpace], which looks for the first ASCII
    non-space byte from the end; [rs] is [s[start:stop]], last byte first. *)
Fixpoint trimSpaceEnd (rs : list ascii) : list ascii :=
  match rs with
  | [] => []
  | c :: r =>
      if (utf8.RuneSelf <=? utf8.byte c)%N
      then TrimRightFunc (rev rs) unicode.IsSpace
      else if asciiSpace c then trimSpaceEnd r
      else rev rs
  end.

(** The first loop of [TrimSpace], which looks for the first ASCII
    non-space byte; [s] is [s[start:]]. *)
Fixpoint trimSpaceFrom (s : list ascii) : list ascii :=
  match s with
  | [] => []
  | c :: r =>
      if (utf8.RuneSelf <=? utf8.byte c)%N then TrimFunc s unicode.IsSpace
      else if asciiSpace c then trimSpaceFrom r
      else trimSpaceEnd (rev s)
  end.

(** [strings.TrimSpace]: both ends are stripped of white space, as
    Unicode defines it. *)
Definition TrimSpace (s : string) : string :=
  string_of_list_ascii (trimSpaceFrom (list_ascii_of_string s)).

(** [strings.Join(elems, sep)]. *)
Fixpoint Join (elems : list string) (sep : string) : string :=
  match elems with
  | [] => ""
  | [e] => e
  | e :: rest => e ++ sep ++ Join rest sep
  end.

(** Every rune of [s] is white space ([""] included): no rune of [s]
    fails [unicode.IsSpace]. *)
Definition allSpace (s : string) : bool :=
  match indexFunc (list_ascii_of_string s) unicode.IsSpace false with
  | None => true
  | Some _ => false
  end.

(** [sub] occurs somewhere in [s] ([strings.Contains]). *)
Fixpoint Contains (s sub : string) : bool :=
  prefix sub s ||
  match s with
  | EmptyString => false
  | String _ r => Contains r sub
  end.

End strings.

(** [len(s)] and the slice [s[:n]] of a Go string. *)
Definition len (s : string) : N := N.of_nat (String.length s).
Definition sliceTo (s : string) (n : N) : string := substring 0 (N.to_nat n) s.

(** ** Errors *)

(** An error is [errors.New]-like (a message) or wraps another one, as
    [fmt.Errorf("...: %w", err)] does. *)
Inductive error : Type :=
| errorString (msg : string)
| wrapError (pfx : string) (inner : error).

(** The [Error()] method. *)
Fixpoint Error (e : error) : string :=
  match e with
  | errorString m => m
  | wrapError p i => p ++ Error i
  end.

(** ** The process and its effects *)

Inductive event : Type :=
| EvLookPath (file : string)                    (* exec.LookPath *)
| EvOutput (name : string) (args : list string) (* Cmd.Output: run, capture stdout *)
| EvRun (name : string) (args : list string)    (* Cmd.Run: run, stdout inherited *)
| EvReadStdin                                   (* a read of os.Stdin *)
| EvPrint (text : string)                       (* fmt.Print*, to stdout *)
| EvJSON (fields : list (string * string)).     (* output.JSON *)

(** What the commands find outside themselves: the executable path, what
    each subprocess answers, and the behaviour of the output helper of
    arc-sdk (an external collaborator). *)
Record Env : Type := {
  LookPath : string -> string * option error;
  cmdOutput : string -> list string -> string * option error;
  cmdRun : string -> list string -> option error;
  outResolve : option error;
  outIsJSON : bool;
  outJSON : list (string * string) -> option error
}.

(** Standard input is a finite run of bytes; a read past its end returns
    [stdinEnd], which is [io.EOF] or whatever error the read met. *)
Record Process : Type := {
  stdin : string;
  stdinEnd : error;
  trace : list event
}.

Definition IO := state Process.

Definition emit (e : event) : IO unit :=
  modify (fun p => {| stdin := stdin p; stdinEnd := stdinEnd p;
                      trace := (trace p ++ [e])%list |}) ;;
  ret tt.

(** The byte ['\n'], and the same as a string. *)
Definition LF : ascii := "010"%char.
Definition CR : ascii := "013"%char.
Definition nl : string := String LF EmptyString.

(** [exec.LookPath(file)]. *)
Definition lookPath (env : Env) (file : string) : IO (string * option error) :=
  emit (EvLookPath file) ;;
  ret (LookPath env file).

(** [exec.CommandContext(ctx, name, args...).Output()]. *)
Definition commandOutput (env : Env) (name : string) (args : list string)
  : IO (string * option error) :=
  emit (EvOutput name args) ;;
  ret (cmdOutput env name args).

(** [exec.CommandContext(ctx, name, args...).Run()], with the standard
    output and error of the process left to the child. *)
Definition commandRun (env : Env) (name : string) (args : list string)
  : IO (option error) :=
  emit (EvRun name args) ;;
  ret (cmdRun env name args).

Definition Print (text : string) : IO unit := emit (EvPrint text).
Definition Println (text : string) : IO unit := emit (EvPrint (text ++ nl)).

(** [s] cut after the first [delim]: the bytes up to and including it, and
    what follows; [None] for the rest when [s] holds no [delim]. *)
Fixpoint cutAfter (delim : ascii) (s : string) : string * option string :=
  match s with
  | EmptyString => (EmptyString, None)
  | String c r =>
      if Ascii.eqb c delim then (String c EmptyString, Some r)
      else let (l, rest) := cutAfter delim r in (String c l, rest)
  end.

(** [bufio.NewReader(os.Stdin).ReadString(delim)]: the bytes up to and
    including the first [delim]; when the input ends before a [delim] shows
    up, the bytes read so far together with the error that ended it. *)
Definition ReadString (delim : ascii) : IO (string * option error) :=
  p <- get ;;
  let (line, rest) := cutAfter delim (stdin p) in
  put {| stdin := match rest with Some r => r | None => EmptyString end;
         stdinEnd := stdinEnd p;
         trace := (trace p ++ [EvReadStdin])%list |} ;;
  ret (line, match rest with Some _ => None | None => Some (stdinEnd p) end).

(** [bufio.ScanLines] drops one trailing ['\r'] of a line. *)
Fixpoint dropCR (s : string) : string :=
  match s with
  | EmptyString => EmptyString
  | String c EmptyString => if Ascii.eqb c CR then EmptyString else s
  | String c r => String c (dropCR r)
  end.

(** [bufio.MaxScanTokenSize]: a line that does not fit in a buffer of
    this size, terminator included, stops the scanner; so does a last line
    without terminator that fills the buffer. *)
Definition MaxScanTokenSize : N := 65536.

Definition tokenFits (line : string) : bool :=
  (len line <? MaxScanTokenSize)%N.

(** The loop [for scanner.Scan() { lines = append(lines, scanner.Text()) }]
    over the input [rest], [cur] being the bytes of the line under way.
    The last line needs no terminator; an empty last line is no line. *)
Fixpoint scanLoop (cur rest : string) : list string :=
  match rest with
  | EmptyString =>
      match cur with
      | EmptyString => []
      | _ => if tokenFits cur then [dropCR cur] else []
      end
  | String c r =>
      if Ascii.eqb c LF
      then if tokenFits cur then dropCR cur :: scanLoop EmptyString r else []
      else scanLoop (cur ++ String c EmptyString) r
  end.

(** The scanner loop on standard input: the lines, and the input used up. *)
Definition scanStdinLines : IO (list string) :=
  p <- get ;;
  put {| stdin := EmptyString; stdinEnd := stdinEnd p;
         trace := (trace p ++ [EvReadStdin])%list |} ;;
  ret (scanLoop EmptyString (stdin p)).

(** ** The provider dispatcher *)

Section Commands.

Variable env : Env.

Definition isNil (err : option error) : bool :=
  match err with None => true | Some _ => false end.

Definition nonEmpty (s : string) : bool := negb (String.eqb s "").

Definition askClaude (prompt model : string) : IO (string * option error) :=
  let args := ["--print"] in
  let args := if nonEmpty model then (args ++ ["--model"; model])%list else args in
  let args := (args ++ [prompt])%list in
  '(output, err) <- commandOutput env "claude" args ;;
  match err with
  | Some e => ret ("", Some (wrapError "claude failed: " e))
  | None => ret (strings.TrimSpace output, None)
  end.

Definition askCodex (prompt model : string) : IO (string * option error) :=
  let args := ["ask"] in
  let args := if nonEmpty model then (args ++ ["--model"; model])%list else args in
  let args := (args ++ [prompt])%list in
  '(output, err) <- commandOutput env "codex" args ;;
  match err with
  | Some e => ret ("", Some (wrapError "codex failed: " e))
  | None => ret (strings.TrimSpace output, None)
  end.

Definition noProvider : error :=
  errorString "no AI provider available (install claude or codex CLI)".

(** [askAI] sends a prompt to the AI and returns the response; it tries
    the providers in order of preference. *)
Definition askAI (prompt model : string) : IO (string * option error) :=
  '(_, err) <- lookPath env "claude" ;;
  if isNil err then askClaude prompt model
  else
    '(_, err) <- lookPath env "codex" ;;
    if isNil err then askCodex prompt model
    else ret ("", Some noProvider).

(** ** The commit command *)

(** The marker appended to a diff that was cut. *)
Definition truncationMarker : string := nl ++ "... (truncated)".

(** The value of the local [diff] once lines 62-65 have run. *)
Definition commitDiff (diffOutput : string) : string :=
  let diff := diffOutput in
  if (10000 <? len diff)%N then sliceTo diff 10000 ++ truncationMarker else diff.

(** The [fmt.Sprintf] of lines 68-76. *)
Definition commitPrompt (diff : string) : string :=
  "Generate a concise git commit message for the following diff." ++ nl ++
  "Use conventional commit format (feat:, fix:, docs:, refactor:, etc.)." ++ nl ++
  "Keep the message under 72 characters for the subject line." ++ nl ++
  "Include a brief body if needed." ++ nl ++
  nl ++
  "Diff:" ++ nl ++
  diff ++ nl ++
  nl ++
  "Respond with ONLY the commit message, no explanations.".

(** Lines 87-114 of [RunE]: what becomes of the generated message. *)
Definition confirmCommit (message : string) (dryRun : bool) : IO (option error) :=
  if dryRun then
    Print (nl ++ "Suggested commit message:" ++ nl ++ message ++ nl) ;;
    ret None
  else
    Print (nl ++ "Suggested commit message:" ++ nl ++ message ++ nl ++ nl) ;;
    Print "Use this message? [Y/n]: " ;;
    '(response, _) <- ReadString LF ;;
    let response := strings.TrimSpace (strings.ToLower response) in
    if negb (String.eqb response "") && negb (String.eqb response "y")
       && negb (String.eqb response "yes")
    then
      Println "Commit cancelled." ;;
      ret None
    else
      err <- commandRun env "git" ["commit"; "-m"; message] ;;
      match err with
      | Some e => ret (Some (wrapError "git commit failed: " e))
      | None => ret None
      end.

(** [RunE] of [newCommitCmd], for the flags [--model] and [--dry-run]. *)
Definition commitRunE (model : string) (dryRun : bool) : IO (option error) :=
  '(diffOutput, err) <- commandOutput env "git" ["diff"; "--cached"] ;;
  match err with
  | Some e => ret (Some (wrapError "git diff failed: " e))
  | None =>
    if (len diffOutput =? 0)%N then ret (Some (errorString "no staged changes"))
    else
      let prompt := commitPrompt (commitDiff diffOutput) in
      Println "Generating commit message..." ;;
      '(message, err) <- askAI prompt model ;;
      match err with
      | Some e => ret (Some (wrapError "AI request failed: " e))
      | None => confirmCommit (strings.TrimSpace message) dryRun
      end
  end.

(** ** The ask command *)

(** The question of lines 144-155. *)
Definition deriveQuestion (args : list string) : IO string :=
  if (0 <? List.length args)%nat then ret (strings.Join args " ")
  else
    lines <- scanStdinLines ;;
    ret (strings.Join lines nl).

(** [RunE] of [newAskCmd], for the positional arguments and [--model]. *)
Definition askRunE (model : string) (args : list string) : IO (option error) :=
  match outResolve env with
  | Some e => ret (Some e)
  | None =>
    question <- deriveQuestion args ;;
    if String.eqb (strings.TrimSpace question) "" then
      ret (Some (errorString "no question provided"))
    else
      '(response, err) <- askAI question model ;;
      match err with
      | Some e => ret (Some e)
      | None =>
        if outIsJSON env then
          emit (EvJSON [("question", question); ("response", response)]) ;;
          ret (outJSON env [("question", question); ("response", response)])
        else
          Println response ;;
          ret None
      end
  end.

End Commands.

(** Modelled from the spec: the entry point of the program ([main]), which
    is not part of the command layer.  A command that returns no error ends
    the process with status zero, a command that returns an error ends it
    with a non-zero status. *)
Definition exitStatus (result : option error) : nat :=
  match result with
  | None => 0
  | Some _ => 1
  end.

(** A fresh process: nothing done yet. *)
Definition start (input : string) (ending : error) : Process :=
  {| stdin := input; stdinEnd := ending; trace := [] |}.

Definition EOF : error := errorString "EOF".

(** ** Vocabulary of the properties *)

(** [p] with the effects [es] added to its trace. *)
Definition log (p : Process) (es : list event) : Process :=
  {| stdin := stdin p; stdinEnd := stdinEnd p; trace := (trace p ++ es)%list |}.

(** [p] once [ReadString LF] has taken its line off standard input. *)
Definition consumeLine (p : Process) : Process :=
  {| stdin := match snd (cutAfter LF (stdin p)) with
              | Some r => r
              | None => EmptyString
              end;
     stdinEnd := stdinEnd p;
     trace := trace p |}.

(** [p] once the scanner loop has used standard input up. *)
Definition consumeAll (p : Process) : Process :=
  {| stdin := EmptyString; stdinEnd := stdinEnd p; trace := trace p |}.

(** The effects a computation adds when it is run from [p]. *)
Definition effects {A : Type} (io : IO A) (p : Process) : list event :=
  skipn (List.length (trace p)) (trace (execState io p)).

(** The spawns of a provider in a list of effects. *)
Definition isProviderCall (e : event) : bool :=
  match e with
  | EvOutput name _ | EvRun name _ =>
      String.eqb name "claude" || String.eqb name "codex"
  | _ => false
  end.

(** The invocations of [git commit] in a list of effects. *)
Definition isCommit (e : event) : bool :=
  match e with
  | EvOutput name (sub :: _) | EvRun name (sub :: _) =>
      String.eqb name "git" && String.eqb sub "commit"
  | _ => false
  end.

Definition isSpawn (e : event) : bool :=
  match e with
  | EvOutput _ _ | EvRun _ _ => true
  | _ => false
  end.

Definition isStdinRead (e : event) : bool :=
  match e with EvReadStdin => true | _ => false end.

(** The flag [--model], passed on only when a model was named. *)
Definition modelFlag (model : string) : list string :=
  if nonEmpty model then ["--model"; model] else [].

(** What a provider binding makes of the outcome of its subprocess. *)
Definition answer (pfx : string) (out : string * option error)
  : string * option error :=
  match snd out with
  | Some e => ("", Some (wrapError pfx e))
  | None => (strings.TrimSpace (fst out), None)
  end.

(** [exec.LookPath] found the executable. *)
Definition found (env : Env) (file : string) : bool :=
  isNil (snd (LookPath env file)).

(** The effects of the commit flow up to the call of the dispatcher. *)
Definition diffEvents : list event :=
  [EvOutput "git" ["diff"; "--cached"];
   EvPrint ("Generating commit message..." ++ nl)].

(** The commit flow reaches the confirmer: the staged diff is [d], not
    empty, and the dispatcher answers [msg] without an error, leaving the
    process in [p2]. *)
Definition generates (env : Env) (model : string) (p : Process)
    (d msg : string) (p2 : Process) : Prop :=
  cmdOutput env "git" ["diff"; "--cached"] = (d, None) /\
  d <> "" /\
  runState (askAI env (commitPrompt (commitDiff d)) model) (log p diffEvents)
    = ((msg, None), p2).

(** What [git commit] makes of the outcome of its subprocess. *)
Definition commitResult (err : option error) : option error :=
  match err with
  | Some e => Some (wrapError "git commit failed: " e)
  | None => None
  end.

(** The message as the dry run prints it; the interactive flow prints one
    more newline after it. *)
Definition suggested (message : string) : string :=
  nl ++ "Suggested commit message:" ++ nl ++ message ++ nl.

(** *** Concrete environments *)

Definition notFound (file : string) : error :=
  errorString ("exec: " ++ file ++ ": executable file not found in $PATH").

(** An executable path holding exactly the files of [bins]. *)
Definition pathWith (bins : list string) (file : string) : string * option error :=
  if existsb (String.eqb file) bins then ("/usr/bin/" ++ file, None)
  else ("", Some (notFound file)).

(** A machine where [git diff --cached] prints [d] and exits as [derr]
    says, every provider prints [reply], and [git commit] succeeds. *)
Definition machine (bins : list string) (d : string) (derr : option error)
    (reply : string) : Env :=
  {| LookPath := pathWith bins;
     cmdOutput := fun name _ =>
       if String.eqb name "git" then (d, derr) else (reply, None);
     cmdRun := fun _ _ => None;
     outResolve := None;
     outIsJSON := false;
     outJSON := fun _ => None |}.

Definition exitError (code : string) : error :=
  errorString ("exit status " ++ code).

(** The effects and the answer of the dispatcher, by what is on the path. *)
Definition dispatchEvents (env : Env) (model prompt : string) : list event :=
  if found env "claude" then
    [EvLookPath "claude";
     EvOutput "claude" ("--print" :: modelFlag model ++ [prompt])%list]
  else if found env "codex" then
    [EvLookPath "claude"; EvLookPath "codex";
     EvOutput "codex" ("ask" :: modelFlag model ++ [prompt])%list]
  else [EvLookPath "claude"; EvLookPath "codex"].

Definition dispatchAnswer (env : Env) (model prompt : string)
  : string * option error :=
  if found env "claude" then
    answer "claude failed: "
      (cmdOutput env "claude" ("--print" :: modelFlag model ++ [prompt])%list)
  else if found env "codex" then
    answer "codex failed: "
      (cmdOutput env "codex" ("ask" :: modelFlag model ++ [prompt])%list)
  else ("", Some noProvider).

(** The effects of the confirmer up to and including its read. *)
Definition askEvents (message : string) : list event :=
  [EvPrint (suggested message ++ nl);
   EvPrint "Use this message? [Y/n]: ";
   EvReadStdin].

(** A staged diff of 10,001 bytes, and one of 18. *)
Definition longDiff : string :=
  string_of_list_ascii (repeat "a"%char (N.to_nat 10001)).
Definition shortDiff : string := "diff --git a/f b/f".

(** Machines for the examples: both providers installed, only the second,
    none; one with a long diff; one where [git diff] exits with status 128,
    and one where it prints nothing. *)
Definition bothInstalled : Env :=
  machine ["git"; "claude"; "codex"] shortDiff None (" feat: add f" ++ nl).
Definition codexOnly : Env :=
  machine ["git"; "codex"] shortDiff None (" feat: add f" ++ nl).
Definition noneInstalled : Env :=
  machine ["git"] shortDiff None "".
Definition longDiffMachine : Env :=
  machine ["git"; "claude"] longDiff None "feat: many a".
Definition diffFails : Env :=
  machine ["git"; "claude"] "" (Some (exitError "128")) "feat: add f".
Definition nothingStaged : Env :=
  machine ["git"; "claude"] "" None "feat: add f".

(** The byte [c] occurs in [s]. *)
Fixpoint hasByte (c : ascii) (s : string) : bool :=
  match s with
  | EmptyString => false
  | String x r => Ascii.eqb x c || hasByte c r
  end.

(** The last byte of [s] is [c]. *)
Fixpoint endsWith (c : ascii) (s : string) : bool :=
  match s with
  | EmptyString => false
  | String x EmptyString => Ascii.eqb x c
  | String _ r => endsWith c r
  end.

(** A line as a text file has it: no newline inside, no carriage return
    at its end, short enough for the scanner. *)
Definition plainLine (l : string) : bool :=
  negb (hasByte LF l) && negb (endsWith CR l) && tokenFits l.

(** The text whose lines are [ls], each one ended by a newline. *)
Fixpoint unlines (ls : list string) : string :=
  match ls with
  | [] => ""
  | l :: rest => l ++ nl ++ unlines rest
  end.

(** What the ask command does with the answer of the dispatcher. *)
Definition reportEvents (env : Env) (question : string)
    (ans : string * option error) : list event :=
  match ans with
  | (_, Some _) => []
  | (response, None) =>
      if outIsJSON env
      then [EvJSON [("question", question); ("response", response)]]
      else [EvPrint (response ++ nl)]
  end.

Definition reportResult (env : Env) (question : string)
    (ans : string * option error) : option error :=
  match ans with
  | (_, Some e) => Some e
  | (response, None) =>
      if outIsJSON env
      then outJSON env [("question", question); ("response", response)]
      else None
  end.

(** A machine that answers in JSON. *)
Definition jsonMachine : Env :=
  {| LookPath := pathWith ["codex"];
     cmdOutput := fun _ _ => ("42" ++ nl, None);
     cmdRun := fun _ _ => None;
     outResolve := None;
     outIsJSON := true;
     outJSON := fun _ => None |}.

(** ** Vocabulary of the further properties *)

(** The provider the dispatcher settles on, as the name of its executable
    and the subcommand it is given, by what is on the path. *)
Definition selected (env : Env) : option (string * string) :=
  if found env "claude" then Some ("claude", "--print")
  else if found env "codex" then Some ("codex", "ask")
  else None.

(** The prefix each provider binding puts before the error of its process. *)
Definition failurePrefix (name : string) : string := name ++ " failed: ".

(** What the user sees of an answer: a print or a JSON document. *)
Definition isReport (e : event) : bool :=
  match e with
  | EvPrint _ | EvJSON _ => true
  | _ => false
  end.

Definition isProbe (e : event) : bool :=
  match e with EvLookPath _ => true | _ => false end.

(** The line read by the confirmer is accepted. *)
Definition accepted (line : string) : Prop :=
  let response := strings.TrimSpace (strings.ToLower line) in
  response = "" \/ response = "y" \/ response = "yes".

(** The ways through the commit command, each with the result it returns
    and the effects it has. *)
Inductive CommitPath (env : Env) (model : string) (dryRun : bool) (p : Process)
  : option error -> list event -> Prop :=
| DiffFailed out e :
    cmdOutput env "git" ["diff"; "--cached"] = (out, Some e) ->
    CommitPath env model dryRun p
      (Some (wrapError "git diff failed: " e))
      [EvOutput "git" ["diff"; "--cached"]]
| NothingStaged :
    cmdOutput env "git" ["diff"; "--cached"] = ("", None) ->
    CommitPath env model dryRun p
      (Some (errorString "no staged changes"))
      [EvOutput "git" ["diff"; "--cached"]]
| ProviderFailed d r e :
    cmdOutput env "git" ["diff"; "--cached"] = (d, None) -> d <> "" ->
    dispatchAnswer env model (commitPrompt (commitDiff d)) = (r, Some e) ->
    CommitPath env model dryRun p
      (Some (wrapError "AI request failed: " e))
      (diffEvents ++ dispatchEvents env model (commitPrompt (commitDiff d)))
| DryRun d msg :
    cmdOutput env "git" ["diff"; "--cached"] = (d, None) -> d <> "" ->
    dispatchAnswer env model (commitPrompt (commitDiff d)) = (msg, None) ->
    dryRun = true ->
    CommitPath env model dryRun p None
      (diffEvents ++ dispatchEvents env model (commitPrompt (commitDiff d))
         ++ [EvPrint (suggested (strings.TrimSpace msg))])
| Cancelled d msg :
    cmdOutput env "git" ["diff"; "--cached"] = (d, None) -> d <> "" ->
    dispatchAnswer env model (commitPrompt (commitDiff d)) = (msg, None) ->
    dryRun = false ->
    ~ accepted (fst (cutAfter LF (stdin p))) ->
    CommitPath env model dryRun p None
      (diffEvents ++ dispatchEvents env model (commitPrompt (commitDiff d))
         ++ askEvents (strings.TrimSpace msg)
         ++ [EvPrint ("Commit cancelled." ++ nl)])
| Confirmed d msg :
    cmdOutput env "git" ["diff"; "--cached"] = (d, None) -> d <> "" ->
    dispatchAnswer env model (commitPrompt (commitDiff d)) = (msg, None) ->
    dryRun = false ->
    accepted (fst (cutAfter LF (stdin p))) ->
    CommitPath env model dryRun p
      (commitResult (cmdRun env "git" ["commit"; "-m"; strings.TrimSpace msg]))
      (diffEvents ++ dispatchEvents env model (commitPrompt (commitDiff d))
         ++ askEvents (strings.TrimSpace msg)
         ++ [EvRun "git" ["commit"; "-m"; strings.TrimSpace msg]]).

(** *** Further concrete environments *)

(** A machine like [machine], where the providers exit as [perr] says and
    [git commit] as [cerr] says. *)
Definition machineWith (bins : list string) (d reply : string)
    (perr cerr : option error) : Env :=
  {| LookPath := pathWith bins;
     cmdOutput := fun name _ =>
       if String.eqb name "git" then (d, None) else (reply, perr);
     cmdRun := fun _ _ => cerr;
     outResolve := None;
     outIsJSON := false;
     outJSON := fun _ => None |}.

(** Both providers installed, the first one failing. *)
Definition claudeFails : Env :=
  machineWith ["git"; "claude"; "codex"] shortDiff "partial answer"
    (Some (exitError "1")) None.

(** A provider that answers with white space only. *)
Definition blankReply : Env :=
  machineWith ["git"; "codex"] shortDiff ("  " ++ nl) None None.

(** A commit refused by a hook. *)
Definition commitFails : Env :=
  machineWith ["git"; "claude"] shortDiff "feat: add f" None
    (Some (exitError "1")).

(** A machine whose output helper refuses the output format. *)
Definition badFormat : Env :=
  {| LookPath := pathWith ["claude"];
     cmdOutput := fun _ _ => ("42", None);
     cmdRun := fun _ _ => None;
     outResolve := Some (errorString "invalid output format");
     outIsJSON := false;
     outJSON := fun _ => None |}.

(** A line of 65,536 bytes. *)
Definition longLine : string :=
  string_of_list_ascii (repeat "a"%char (N.to_nat 65536)).

(** The ways through the ask command, each with the result it returns
    and the effects it has. *)
Inductive AskPath (env : Env) (model : string) (args : list string) (p : Process)
  : option error -> list event -> Prop :=
| Unresolved e :
    outResolve env = Some e ->
    AskPath env model args p (Some e) []
| NoQuestion :
    outResolve env = None ->
    strings.TrimSpace (evalState (deriveQuestion args) p) = "" ->
    AskPath env model args p
      (Some (errorString "no question provided"))
      (effects (deriveQuestion args) p)
| Asked :
    outResolve env = None ->
    strings.TrimSpace (evalState (deriveQuestion args) p) <> "" ->
    AskPath env model args p
      (reportResult env (evalState (deriveQuestion args) p)
         (dispatchAnswer env model (evalState (deriveQuestion args) p)))
      (effects (deriveQuestion args) p
         ++ dispatchEvents env model (evalState (deriveQuestion args) p)
         ++ reportEvents env (evalState (deriveQuestion args) p)
              (dispatchAnswer env model (evalState (deriveQuestion args) p))).

(** *** Runes at the ends of a string *)

(** A string whose first byte, if any, starts a rune. *)
Definition startsRune (q : list ascii) : Prop :=
  match q with
  | [] => True
  | c :: _ => utf8.RuneStart c = true
  end.

(** The three outcomes of decoding the last rune of a string: an ASCII
    byte, a byte that ends no valid sequence, a valid sequence. *)
Inductive LastRune (s : list ascii) (r : N) (size : nat) : Prop :=
| LastASCII pre c :
    s = (pre ++ [c])%list -> (utf8.byte c <? utf8.RuneSelf)%N = true ->
    r = utf8.byte c -> size = 1 -> LastRune s r size
| LastInvalid pre c :
    s = (pre ++ [c])%list -> (utf8.byte c <? utf8.RuneSelf)%N = false ->
    r = utf8.RuneError -> size = 1 -> LastRune s r size
| LastSequence pre c seg :
    s = (pre ++ c :: seg)%list -> seg <> [] -> utf8.RuneStart c = true ->
    utf8.DecodeRuneInString (c :: seg) = (r, size) ->
    size = List.length (c :: seg) -> LastRune s r size.

(** The first rune of [s], as Go decodes it, is no white space. *)
Definition goodHead (s : list ascii) : Prop :=
  unicode.IsSpace (fst (utf8.DecodeRuneInString s)) = false.

(** The last rune of [s], as Go decodes it, is no white space. *)
Definition goodLast (s : list ascii) : Prop :=
  unicode.IsSpace (fst (utf8.DecodeLastRuneInString s)) = false.

(** U+00A0 NO-BREAK SPACE and U+3000 IDEOGRAPHIC SPACE, in UTF-8. *)
Definition noBreakSpace : string :=
  String (ascii_of_N 0xC2) (String (ascii_of_N 0xA0) EmptyString).
Definition ideographicSpace : string :=
  String (ascii_of_N 0xE3)
    (String (ascii_of_N 0x80) (String (ascii_of_N 0x80) EmptyString)).

(** * Properties *)

(** ** Running the monad *)

Lemma log_log p es es' : log (log p es) es' = log p (es ++ es').
Proof. unfold log; cbn. now rewrite <- app_assoc. Qed.

Lemma log_nil p : log p [] = p.
Proof. destruct p; unfold log; cbn. now rewrite app_nil_r. Qed.

Lemma run_ret {A} (a : A) (p : Process) : runState (ret a) p = (a, p).
Proof. reflexivity. Qed.

Lemma run_bind {A B} (m : IO A) (f : A -> IO B) (p : Process) :
  runState (bind m f) p = let (a, p') := runState m p in runState (f a) p'.
Proof. reflexivity. Qed.

Lemma run_emit e p : runState (emit e) p = (tt, log p [e]).
Proof. reflexivity. Qed.

Lemma run_lookPath env file p :
  runState (lookPath env file) p = (LookPath env file, log p [EvLookPath file]).
Proof. reflexivity. Qed.

Lemma run_commandOutput env name args p :
  runState (commandOutput env name args) p =
  (cmdOutput env name args, log p [EvOutput name args]).
Proof. reflexivity. Qed.

Lemma run_commandRun env name args p :
  runState (commandRun env name args) p =
  (cmdRun env name args, log p [EvRun name args]).
Proof. reflexivity. Qed.

Lemma run_Print text p : runState (Print text) p = (tt, log p [EvPrint text]).
Proof. reflexivity. Qed.

Lemma run_Println text p :
  runState (Println text) p = (tt, log p [EvPrint (text ++ nl)]).
Proof. reflexivity. Qed.

Lemma run_ReadString p :
  runState (ReadString LF) p =
  ((fst (cutAfter LF (stdin p)),
    match snd (cutAfter LF (stdin p)) with
    | Some _ => None
    | None => Some (stdinEnd p)
    end),
   log (consumeLine p) [EvReadStdin]).
Proof.
  unfold ReadString, consumeLine, log. cbn.
  destruct (cutAfter LF (stdin p)) as [line [rest|]]; reflexivity.
Qed.

Lemma run_scanStdinLines p :
  runState scanStdinLines p =
  (scanLoop "" (stdin p), log (consumeAll p) [EvReadStdin]).
Proof. reflexivity. Qed.

Lemma consumeLine_log p es : consumeLine (log p es) = log (consumeLine p) es.
Proof. reflexivity. Qed.

(** Symbolic execution: push [runState] through the binds and the
    primitive effects, then merge the logged effects. *)
Ltac run_steps :=
  repeat progress
    (rewrite ?run_bind, ?run_ret, ?run_emit, ?run_lookPath,
       ?run_commandOutput, ?run_commandRun, ?run_Print, ?run_Println,
       ?run_ReadString, ?run_scanStdinLines, ?consumeLine_log, ?log_log;
     cbv beta iota zeta).

(** The effects of a run are what it logged. *)
Lemma effects_log {A} (io : IO A) p q es :
  execState io p = log q es -> trace q = trace p -> effects io p = es.
Proof.
  intros H Hq. unfold effects. rewrite H. cbn [log trace]. rewrite Hq.
  rewrite skipn_app, skipn_all, Nat.sub_diag. reflexivity.
Qed.

Lemma run_askClaude env prompt model p :
  runState (askClaude env prompt model) p =
  (answer "claude failed: "
     (cmdOutput env "claude" ("--print" :: modelFlag model ++ [prompt])%list),
   log p [EvOutput "claude" ("--print" :: modelFlag model ++ [prompt])%list]).
Proof.
  unfold askClaude, answer, modelFlag.
  destruct (nonEmpty model); run_steps; cbn [app];
    match goal with |- context [cmdOutput ?e ?n ?a] =>
      destruct (cmdOutput e n a) as [out [err|]] end; reflexivity.
Qed.

Lemma run_askCodex env prompt model p :
  runState (askCodex env prompt model) p =
  (answer "codex failed: "
     (cmdOutput env "codex" ("ask" :: modelFlag model ++ [prompt])%list),
   log p [EvOutput "codex" ("ask" :: modelFlag model ++ [prompt])%list]).
Proof.
  unfold askCodex, answer, modelFlag.
  destruct (nonEmpty model); run_steps; cbn [app];
    match goal with |- context [cmdOutput ?e ?n ?a] =>
      destruct (cmdOutput e n a) as [out [err|]] end; reflexivity.
Qed.

(** The whole of [askAI], by what the two probes find. *)
Lemma run_askAI env prompt model p :
  runState (askAI env prompt model) p =
  if found env "claude" then
    (answer "claude failed: "
       (cmdOutput env "claude" ("--print" :: modelFlag model ++ [prompt])%list),
     log p [EvLookPath "claude";
            EvOutput "claude" ("--print" :: modelFlag model ++ [prompt])%list])
  else if found env "codex" then
    (answer "codex failed: "
       (cmdOutput env "codex" ("ask" :: modelFlag model ++ [prompt])%list),
     log p [EvLookPath "claude"; EvLookPath "codex";
            EvOutput "codex" ("ask" :: modelFlag model ++ [prompt])%list])
  else
    (("", Some noProvider), log p [EvLookPath "claude"; EvLookPath "codex"]).
Proof.
  unfold askAI, found. run_steps.
  destruct (LookPath env "claude") as [path1 [e1|]]; cbn [snd isNil]; run_steps.
  - destruct (LookPath env "codex") as [path2 [e2|]]; cbn [snd isNil]; run_steps.
    + reflexivity.
    + rewrite run_askCodex. run_steps. reflexivity.
  - rewrite run_askClaude. run_steps. reflexivity.
Qed.

Lemma run_askAI_dispatch env prompt model p :
  runState (askAI env prompt model) p =
  (dispatchAnswer env model prompt, log p (dispatchEvents env model prompt)).
Proof.
  rewrite run_askAI. unfold dispatchAnswer, dispatchEvents.
  destruct (found env "claude"); [reflexivity|].
  destruct (found env "codex"); reflexivity.
Qed.

(** ** Strings *)

Lemma len_zero s : (len s =? 0)%N = true <-> s = "".
Proof.
  unfold len. destruct s; cbn [String.length]; split; intros H;
    reflexivity || discriminate.
Qed.

Lemma len_nonzero s : s <> "" -> (len s =? 0)%N = false.
Proof.
  intros H. destruct (len s =? 0)%N eqn:E; [|reflexivity].
  apply len_zero in E. contradiction.
Qed.

Lemma append_assoc_r (a b c : string) : (a ++ b) ++ c = a ++ b ++ c.
Proof. induction a; cbn; [reflexivity | now rewrite IHa]. Qed.

Lemma declined_iff r :
  negb (String.eqb r "") && negb (String.eqb r "y") && negb (String.eqb r "yes")
    = true
  <-> r <> "" /\ r <> "y" /\ r <> "yes".
Proof.
  rewrite !andb_true_iff, !negb_true_iff, !String.eqb_neq. tauto.
Qed.

Lemma accepted_iff r :
  negb (String.eqb r "") && negb (String.eqb r "y") && negb (String.eqb r "yes")
    = false
  <-> r = "" \/ r = "y" \/ r = "yes".
Proof.
  destruct (String.eqb_spec r ""); [cbn; tauto|].
  destruct (String.eqb_spec r "y"); [cbn; tauto|].
  destruct (String.eqb_spec r "yes"); [cbn; tauto|].
  cbn. split; [discriminate | tauto].
Qed.

(** ** The commit flow, path by path *)

Lemma run_commit_diff_failed env model dryRun p out e :
  cmdOutput env "git" ["diff"; "--cached"] = (out, Some e) ->
  runState (commitRunE env model dryRun) p =
  (Some (wrapError "git diff failed: " e),
   log p [EvOutput "git" ["diff"; "--cached"]]).
Proof.
  intros H. unfold commitRunE. run_steps. rewrite H. run_steps. reflexivity.
Qed.

Lemma run_commit_nothing_staged env model dryRun p :
  cmdOutput env "git" ["diff"; "--cached"] = ("", None) ->
  runState (commitRunE env model dryRun) p =
  (Some (errorString "no staged changes"),
   log p [EvOutput "git" ["diff"; "--cached"]]).
Proof.
  intros H. unfold commitRunE. run_steps. rewrite H. run_steps. reflexivity.
Qed.

Lemma run_commit_staged env model dryRun p d :
  cmdOutput env "git" ["diff"; "--cached"] = (d, None) -> d <> "" ->
  runState (commitRunE env model dryRun) p =
  match dispatchAnswer env model (commitPrompt (commitDiff d)) with
  | (_, Some e) =>
      (Some (wrapError "AI request failed: " e),
       log p (diffEvents ++ dispatchEvents env model (commitPrompt (commitDiff d))))
  | (message, None) =>
      runState (confirmCommit env (strings.TrimSpace message) dryRun)
        (log p (diffEvents ++ dispatchEvents env model (commitPrompt (commitDiff d))))
  end.
Proof.
  intros H Hd. unfold commitRunE. run_steps. rewrite H. run_steps.
  rewrite (len_nonzero _ Hd). run_steps.
  rewrite run_askAI_dispatch. run_steps.
  destruct (dispatchAnswer env model (commitPrompt (commitDiff d))) as [m [e|]];
    run_steps; reflexivity.
Qed.

Lemma generates_inv env model p d msg p2 :
  generates env model p d msg p2 ->
  dispatchAnswer env model (commitPrompt (commitDiff d)) = (msg, None) /\
  p2 = log p (diffEvents ++ dispatchEvents env model (commitPrompt (commitDiff d))).
Proof.
  intros (_ & _ & H). rewrite run_askAI_dispatch, log_log in H.
  inversion H; subst. split; reflexivity.
Qed.

Lemma run_commit_generated env model dryRun p d msg p2 :
  generates env model p d msg p2 ->
  runState (commitRunE env model dryRun) p =
  runState (confirmCommit env (strings.TrimSpace msg) dryRun) p2.
Proof.
  intros G. destruct (generates_inv _ _ _ _ _ _ G) as [Ha ->].
  destruct G as (Hd & Hne & _).
  rewrite (run_commit_staged _ _ _ _ _ Hd Hne), Ha. reflexivity.
Qed.

Lemma run_confirm_dry env message p :
  runState (confirmCommit env message true) p =
  (None, log p [EvPrint (suggested message)]).
Proof. unfold confirmCommit. run_steps. reflexivity. Qed.

Lemma run_confirm_interactive env message p :
  runState (confirmCommit env message false) p =
  let response :=
    strings.TrimSpace (strings.ToLower (fst (cutAfter LF (stdin p)))) in
  if negb (String.eqb response "") && negb (String.eqb response "y")
     && negb (String.eqb response "yes")
  then (None,
        log (consumeLine p)
          (askEvents message ++ [EvPrint ("Commit cancelled." ++ nl)]))
  else (commitResult (cmdRun env "git" ["commit"; "-m"; message]),
        log (consumeLine p)
          (askEvents message ++ [EvRun "git" ["commit"; "-m"; message]])).
Proof.
  unfold confirmCommit, askEvents, suggested. run_steps.
  cbn [fst stdin log].
  rewrite !append_assoc_r.
  match goal with |- context [if ?b then _ else _] => destruct b end;
    run_steps; [reflexivity|].
  destruct (cmdRun env "git" ["commit"; "-m"; message]); reflexivity.
Qed.

Lemma run_split {A} (io : IO A) p r q es :
  runState io p = (r, log q es) -> trace q = trace p ->
  evalState io p = r /\ effects io p = es.
Proof.
  intros H Hq. split.
  - unfold evalState. now rewrite H.
  - apply effects_log with (q := q); [|exact Hq].
    unfold execState. now rewrite H.
Qed.

Lemma length_append (a b : string) :
  String.length (a ++ b) = String.length a + String.length b.
Proof. induction a; cbn; [reflexivity | now rewrite IHa]. Qed.

Lemma substring_length n s :
  n <= String.length s -> String.length (substring 0 n s) = n.
Proof.
  revert s. induction n as [|n IH]; intros [|c s] H; cbn in *;
    try reflexivity; try lia.
  rewrite IH; [reflexivity | lia].
Qed.

Lemma substring_prefix n s : exists rest, s = substring 0 n s ++ rest.
Proof.
  revert s. induction n as [|n IH]; intros [|c s]; cbn.
  - now exists "".
  - now exists (String c s).
  - now exists "".
  - destruct (IH s) as [rest Hr]. exists rest. now rewrite <- Hr.
Qed.

(** ** The diff collector *)

(** C1. A staged diff longer than 10,000 bytes reaches the prompt builder
    as its first 10,000 bytes followed by the fixed marker, a newline and
    the 15 bytes "... (truncated)", 10,016 bytes in all; a diff of 10,000
    bytes or fewer reaches it unchanged; and the prompt built from that
    input is what the commit flow hands to the dispatcher. *)
Theorem diff_cut_at_10000 (env : Env) (model : string) (dryRun : bool)
    (p : Process) (d : string) :
  ((10000 < len d)%N ->
     commitDiff d = sliceTo d 10000 ++ String LF "... (truncated)" /\
     len (sliceTo d 10000) = 10000%N /\
     len (commitDiff d) = 10016%N /\
     exists rest, d = sliceTo d 10000 ++ rest) /\
  ((len d <= 10000)%N -> commitDiff d = d) /\
  (cmdOutput env "git" ["diff"; "--cached"] = (d, None) -> d <> "" ->
     exists rest,
       effects (commitRunE env model dryRun) p =
       (diffEvents ++ dispatchEvents env model (commitPrompt (commitDiff d))
          ++ rest)%list).
Proof.
  split; [|split].
  - intros H. unfold commitDiff.
    apply N.ltb_lt in H as Hb. rewrite Hb.
    assert (Hl : len (sliceTo d 10000) = 10000%N).
    { unfold len, sliceTo in *. rewrite substring_length; lia. }
    split; [reflexivity|]. split; [exact Hl|]. split.
    + unfold len in *.
      rewrite length_append, Nat2N.inj_add, Hl. reflexivity.
    + apply substring_prefix.
  - intros H. unfold commitDiff.
    destruct (N.ltb_spec 10000 (len d)); [lia | reflexivity].
  - intros Hd Hne.
    pose proof (run_commit_staged env model dryRun p d Hd Hne) as R.
    destruct (dispatchAnswer env model (commitPrompt (commitDiff d)))
      as [m [e|]].
    + exists []. rewrite app_nil_r.
      now apply (run_split _ _ _ _ _ R).
    + destruct dryRun.
      * rewrite run_confirm_dry, log_log, <- app_assoc in R.
        eexists. now apply (run_split _ _ _ _ _ R).
      * rewrite run_confirm_interactive in R. cbv zeta in R.
        match type of R with context [if ?b then _ else _] => destruct b end;
          rewrite consumeLine_log, log_log, <- app_assoc in R;
          eexists; now apply (run_split _ _ _ _ _ R).
Qed.

Lemma diff_cut_at_10000_witness :
  (commitDiff longDiff = sliceTo longDiff 10000 ++ String LF "... (truncated)" /\
   len (sliceTo longDiff 10000) = 10000%N /\
   len (commitDiff longDiff) = 10016%N /\
   exists rest, longDiff = sliceTo longDiff 10000 ++ rest) /\
  commitDiff shortDiff = shortDiff /\
  exists rest,
    effects (commitRunE bothInstalled "" true) (start "" EOF) =
    (diffEvents ++
     dispatchEvents bothInstalled "" (commitPrompt (commitDiff shortDiff)) ++
     rest)%list.
Proof.
  split; [|split].
  - apply (diff_cut_at_10000 longDiffMachine "" true (start "" EOF) longDiff).
    vm_compute. reflexivity.
  - apply (diff_cut_at_10000 bothInstalled "" true (start "" EOF) shortDiff).
    vm_compute. discriminate.
  - apply (diff_cut_at_10000 bothInstalled "" true (start "" EOF) shortDiff).
    + reflexivity.
    + discriminate.
Defined.

(** C2, as the code has it.  When [git diff --cached] ends with an error
    (a non-zero exit, or a process that could not be run), the commit
    command fails with that error wrapped as "git diff failed"; when it
    succeeds and prints nothing, the command fails with "no staged
    changes".  Either way the run spawned the diff and nothing else: no
    provider was probed or called. *)
Theorem commit_stops_without_diff (env : Env) (model : string) (dryRun : bool)
    (p : Process) :
  (forall out e,
     cmdOutput env "git" ["diff"; "--cached"] = (out, Some e) ->
     evalState (commitRunE env model dryRun) p
       = Some (wrapError "git diff failed: " e) /\
     effects (commitRunE env model dryRun) p
       = [EvOutput "git" ["diff"; "--cached"]] /\
     filter isProviderCall (effects (commitRunE env model dryRun) p) = []) /\
  (cmdOutput env "git" ["diff"; "--cached"] = ("", None) ->
     evalState (commitRunE env model dryRun) p
       = Some (errorString "no staged changes") /\
     effects (commitRunE env model dryRun) p
       = [EvOutput "git" ["diff"; "--cached"]] /\
     filter isProviderCall (effects (commitRunE env model dryRun) p) = []).
Proof.
  split.
  - intros out e H.
    destruct (run_split _ _ _ _ _
                (run_commit_diff_failed env model dryRun p out e H) eq_refl)
      as [Hr He].
    rewrite He. split; [exact Hr|]. split; reflexivity.
  - intros H.
    destruct (run_split _ _ _ _ _
                (run_commit_nothing_staged env model dryRun p H) eq_refl)
      as [Hr He].
    rewrite He. split; [exact Hr|]. split; reflexivity.
Qed.

Lemma commit_stops_without_diff_witness :
  (evalState (commitRunE diffFails "" false) (start "" EOF)
     = Some (wrapError "git diff failed: " (exitError "128")) /\
   effects (commitRunE diffFails "" false) (start "" EOF)
     = [EvOutput "git" ["diff"; "--cached"]] /\
   filter isProviderCall
     (effects (commitRunE diffFails "" false) (start "" EOF)) = []) /\
  (evalState (commitRunE nothingStaged "" false) (start "" EOF)
     = Some (errorString "no staged changes") /\
   effects (commitRunE nothingStaged "" false) (start "" EOF)
     = [EvOutput "git" ["diff"; "--cached"]] /\
   filter isProviderCall
     (effects (commitRunE nothingStaged "" false) (start "" EOF)) = []).
Proof.
  split.
  - apply (proj1 (commit_stops_without_diff diffFails "" false
                    (start "" EOF)) "" (exitError "128")).
    reflexivity.
  - apply (proj2 (commit_stops_without_diff nothingStaged "" false
                    (start "" EOF))).
    reflexivity.
Defined.

(** C2 as stated fails: when [git diff] exits with status 128 the command
    fails with "git diff failed: exit status 128", which is not the
    "no staged changes" condition. *)
Lemma diff_failure_is_not_no_staged_changes :
  snd (cmdOutput diffFails "git" ["diff"; "--cached"]) <> None /\
  option_map Error
    (evalState (commitRunE diffFails "" false) (start "" EOF))
    = Some "git diff failed: exit status 128" /\
  strings.Contains "git diff failed: exit status 128" "no staged changes"
    = false.
Proof.
  split; [discriminate|]. split; vm_compute; reflexivity.
Qed.

(** ** The provider dispatcher *)

(** C3. The dispatcher probes "claude" first.  When it is on the path the
    prompt goes to it and to nothing else, whatever the path holds for
    "codex", which is not even probed; "codex" is probed and run only when
    "claude" is absent. *)
Theorem first_provider_found_is_used (env : Env) (prompt model : string)
    (p : Process) :
  hd_error (effects (askAI env prompt model) p) = Some (EvLookPath "claude") /\
  (found env "claude" = true ->
     evalState (askAI env prompt model) p
       = answer "claude failed: "
           (cmdOutput env "claude" ("--print" :: modelFlag model ++ [prompt])%list) /\
     effects (askAI env prompt model) p
       = [EvLookPath "claude";
          EvOutput "claude" ("--print" :: modelFlag model ++ [prompt])%list]) /\
  (found env "claude" = false -> found env "codex" = true ->
     evalState (askAI env prompt model) p
       = answer "codex failed: "
           (cmdOutput env "codex" ("ask" :: modelFlag model ++ [prompt])%list) /\
     effects (askAI env prompt model) p
       = [EvLookPath "claude"; EvLookPath "codex";
          EvOutput "codex" ("ask" :: modelFlag model ++ [prompt])%list]) /\
  (forall e, In e (effects (askAI env prompt model) p) ->
     e = EvLookPath "codex" \/ (exists args, e = EvOutput "codex" args) ->
     found env "claude" = false).
Proof.
  pose proof (run_askAI env prompt model p) as R.
  destruct (found env "claude") eqn:E1; [|destruct (found env "codex") eqn:E2];
    destruct (run_split _ _ _ _ _ R eq_refl) as [Hr He]; rewrite He, Hr;
    (split; [reflexivity|]); (split; [intros; try discriminate; now split|]);
    (split; [intros; try discriminate; now split|]);
    intros e Hin Hk; try reflexivity.
  cbn in Hin.
  destruct Hin as [<-|[<-|[]]]; destruct Hk as [Hk|[args Hk]]; discriminate.
Qed.

Lemma first_provider_found_is_used_witness :
  (evalState (askAI bothInstalled "why?" "") (start "" EOF)
     = answer "claude failed: "
         (cmdOutput bothInstalled "claude" ["--print"; "why?"]) /\
   effects (askAI bothInstalled "why?" "") (start "" EOF)
     = [EvLookPath "claude"; EvOutput "claude" ["--print"; "why?"]]) /\
  (evalState (askAI codexOnly "why?" "o3") (start "" EOF)
     = answer "codex failed: "
         (cmdOutput codexOnly "codex" ["ask"; "--model"; "o3"; "why?"]) /\
   effects (askAI codexOnly "why?" "o3") (start "" EOF)
     = [EvLookPath "claude"; EvLookPath "codex";
        EvOutput "codex" ["ask"; "--model"; "o3"; "why?"]]) /\
  found codexOnly "claude" = false.
Proof.
  split; [|split].
  - apply (first_provider_found_is_used bothInstalled "why?" "" (start "" EOF)).
    reflexivity.
  - apply (first_provider_found_is_used codexOnly "why?" "o3" (start "" EOF));
      reflexivity.
  - apply (proj2 (proj2 (proj2
      (first_provider_found_is_used codexOnly "why?" "o3" (start "" EOF))))
      (EvLookPath "codex")).
    + right. left. reflexivity.
    + left. reflexivity.
Defined.

(** C4. With neither "claude" nor "codex" on the path the dispatcher
    fails with an error whose message names both tools, after the two
    probes and without spawning any subprocess. *)
Theorem no_provider_no_spawn (env : Env) (prompt model : string) (p : Process) :
  found env "claude" = false -> found env "codex" = false ->
  evalState (askAI env prompt model) p = ("", Some noProvider) /\
  Error noProvider = "no AI provider available (install claude or codex CLI)" /\
  strings.Contains (Error noProvider) "claude" = true /\
  strings.Contains (Error noProvider) "codex" = true /\
  effects (askAI env prompt model) p = [EvLookPath "claude"; EvLookPath "codex"] /\
  filter isSpawn (effects (askAI env prompt model) p) = [].
Proof.
  intros H1 H2. pose proof (run_askAI env prompt model p) as R.
  rewrite H1, H2 in R.
  destruct (run_split _ _ _ _ _ R eq_refl) as [Hr He]. rewrite He.
  split; [exact Hr|]. repeat (split; [reflexivity|]). reflexivity.
Qed.

Lemma no_provider_no_spawn_witness :
  evalState (askAI noneInstalled "why?" "") (start "" EOF)
    = ("", Some noProvider) /\
  Error noProvider = "no AI provider available (install claude or codex CLI)" /\
  strings.Contains (Error noProvider) "claude" = true /\
  strings.Contains (Error noProvider) "codex" = true /\
  effects (askAI noneInstalled "why?" "") (start "" EOF)
    = [EvLookPath "claude"; EvLookPath "codex"] /\
  filter isSpawn (effects (askAI noneInstalled "why?" "") (start "" EOF)) = [].
Proof.
  apply (no_provider_no_spawn noneInstalled "why?" "" (start "" EOF));
    reflexivity.
Defined.

(** ** The confirmer *)

Lemma dispatch_no_commit env model prompt :
  filter isCommit (dispatchEvents env model prompt) = [].
Proof.
  unfold dispatchEvents.
  destruct (found env "claude"); [|destruct (found env "codex")]; reflexivity.
Qed.

Lemma dispatch_no_read env model prompt :
  filter isStdinRead (dispatchEvents env model prompt) = [].
Proof.
  unfold dispatchEvents.
  destruct (found env "claude"); [|destruct (found env "codex")]; reflexivity.
Qed.

Lemma no_commit_before env model prompt message :
  filter isCommit
    (diffEvents ++ dispatchEvents env model prompt ++ askEvents message) = [].
Proof. now rewrite !filter_app, dispatch_no_commit. Qed.

Lemma cutAfter_none delim s :
  snd (cutAfter delim s) = None -> fst (cutAfter delim s) = s.
Proof.
  induction s as [|c s IH]; cbn; [reflexivity|].
  destruct (Ascii.eqb c delim); [discriminate|].
  destruct (cutAfter delim s) as [l rest]; cbn in *.
  intros H. now rewrite (IH H).
Qed.

(** The interactive commit flow once a message was generated, by the
    line read from standard input. *)
Lemma run_commit_interactive env model p d msg p2 :
  generates env model p d msg p2 ->
  let message := strings.TrimSpace msg in
  let response :=
    strings.TrimSpace (strings.ToLower (fst (cutAfter LF (stdin p)))) in
  let before :=
    (diffEvents ++ dispatchEvents env model (commitPrompt (commitDiff d))
       ++ askEvents message)%list in
  (response = "" \/ response = "y" \/ response = "yes" ->
     evalState (commitRunE env model false) p
       = commitResult (cmdRun env "git" ["commit"; "-m"; message]) /\
     effects (commitRunE env model false) p
       = (before ++ [EvRun "git" ["commit"; "-m"; message]])%list) /\
  (response <> "" -> response <> "y" -> response <> "yes" ->
     evalState (commitRunE env model false) p = None /\
     effects (commitRunE env model false) p
       = (before ++ [EvPrint ("Commit cancelled." ++ nl)])%list).
Proof.
  intros G message response before.
  pose proof (run_commit_generated env model false p d msg p2 G) as R.
  destruct (generates_inv _ _ _ _ _ _ G) as [_ ->].
  rewrite run_confirm_interactive in R. cbv zeta in R.
  cbn [stdin log] in R. fold message response in R.
  rewrite !consumeLine_log, !log_log, <- !app_assoc in R.
  unfold before. rewrite !app_assoc, <- (app_assoc diffEvents).
  split.
  - intros Hy. apply accepted_iff in Hy. rewrite Hy in R.
    rewrite <- !app_assoc.
    apply (run_split _ _ _ _ _ R). reflexivity.
  - intros H1 H2 H3.
    rewrite (proj2 (declined_iff response) (conj H1 (conj H2 H3))) in R.
    rewrite <- !app_assoc.
    apply (run_split _ _ _ _ _ R). reflexivity.
Qed.

(** Discharges [generates] on a concrete machine by running it. *)
Ltac run_generates :=
  split; [reflexivity | split; [discriminate | vm_compute; reflexivity]].

(** C5, as the code has it.  In the interactive commit flow the line read
    from standard input is case folded and stripped of surrounding white
    space (its newline included).  If what remains is empty, "y" or "yes",
    [git commit -m message] is run, as the last effect of the command and
    its only commit, and decides the result; otherwise the command prints
    "Commit cancelled." and stops without a commit. *)
Theorem response_decides_commit (env : Env) (model : string) (p : Process)
    (d msg : string) (p2 : Process) :
  generates env model p d msg p2 ->
  let message := strings.TrimSpace msg in
  let response :=
    strings.TrimSpace (strings.ToLower (fst (cutAfter LF (stdin p)))) in
  let before :=
    (diffEvents ++ dispatchEvents env model (commitPrompt (commitDiff d))
       ++ askEvents message)%list in
  (response = "" \/ response = "y" \/ response = "yes" ->
     evalState (commitRunE env model false) p
       = commitResult (cmdRun env "git" ["commit"; "-m"; message]) /\
     effects (commitRunE env model false) p
       = (before ++ [EvRun "git" ["commit"; "-m"; message]])%list /\
     filter isCommit (effects (commitRunE env model false) p)
       = [EvRun "git" ["commit"; "-m"; message]]) /\
  (response <> "" -> response <> "y" -> response <> "yes" ->
     evalState (commitRunE env model false) p = None /\
     effects (commitRunE env model false) p
       = (before ++ [EvPrint ("Commit cancelled." ++ nl)])%list /\
     filter isCommit (effects (commitRunE env model false) p) = []).
Proof.
  intros G message response before.
  destruct (run_commit_interactive env model p d msg p2 G) as [Hyes Hno].
  fold message response before in Hyes, Hno.
  split.
  - intros Hy. destruct (Hyes Hy) as [Hr He]. rewrite He.
    split; [exact Hr|]. split; [reflexivity|].
    unfold before. rewrite !app_assoc, <- (app_assoc diffEvents), filter_app.
    now rewrite no_commit_before.
  - intros H1 H2 H3. destruct (Hno H1 H2 H3) as [Hr He]. rewrite He.
    split; [exact Hr|]. split; [reflexivity|].
    unfold before. rewrite !app_assoc, <- (app_assoc diffEvents), filter_app.
    now rewrite no_commit_before.
Qed.

Lemma response_decides_commit_witness :
  (evalState (commitRunE bothInstalled "" false)
     (start (noBreakSpace ++ "y" ++ nl) EOF) = None /\
   filter isCommit
     (effects (commitRunE bothInstalled "" false)
        (start (noBreakSpace ++ "y" ++ nl) EOF))
     = [EvRun "git" ["commit"; "-m"; "feat: add f"]]) /\
  (evalState (commitRunE bothInstalled "" false) (start ("YES" ++ nl) EOF) = None /\
   filter isCommit
     (effects (commitRunE bothInstalled "" false) (start ("YES" ++ nl) EOF))
     = [EvRun "git" ["commit"; "-m"; "feat: add f"]]) /\
  (evalState (commitRunE bothInstalled "" false) (start ("n" ++ nl) EOF) = None /\
   filter isCommit
     (effects (commitRunE bothInstalled "" false) (start ("n" ++ nl) EOF)) = []).
Proof.
  split; [|split].
  - assert (G : generates bothInstalled "" (start (noBreakSpace ++ "y" ++ nl) EOF)
                  shortDiff "feat: add f"
                  (execState (askAI bothInstalled
                                (commitPrompt (commitDiff shortDiff)) "")
                     (log (start (noBreakSpace ++ "y" ++ nl) EOF) diffEvents)))
      by run_generates.
    destruct (proj1 (response_decides_commit _ _ _ _ _ _ G))
      as (Hr & _ & Hc).
    + right. left. reflexivity.
    + split; [exact Hr | exact Hc].
  - assert (G : generates bothInstalled "" (start ("YES" ++ nl) EOF) shortDiff
                  "feat: add f"
                  (execState (askAI bothInstalled
                                (commitPrompt (commitDiff shortDiff)) "")
                     (log (start ("YES" ++ nl) EOF) diffEvents)))
      by run_generates.
    destruct (proj1 (response_decides_commit _ _ _ _ _ _ G))
      as (Hr & _ & Hc).
    + right. right. reflexivity.
    + split; [exact Hr | exact Hc].
  - assert (G : generates bothInstalled "" (start ("n" ++ nl) EOF) shortDiff
                  "feat: add f"
                  (execState (askAI bothInstalled
                                (commitPrompt (commitDiff shortDiff)) "")
                     (log (start ("n" ++ nl) EOF) diffEvents)))
      by run_generates.
    destruct (proj2 (response_decides_commit _ _ _ _ _ _ G))
      as (Hr & _ & Hc); try discriminate.
    split; [exact Hr | exact Hc].
Defined.

(** C5 as stated fails: the response " y" is none of "", "y" and "yes"
    after case folding, and yet the commit is run. *)
Lemma padded_yes_commits :
  strings.ToLower " y" <> "" /\
  strings.ToLower " y" <> "y" /\
  strings.ToLower " y" <> "yes" /\
  evalState (commitRunE bothInstalled "" false) (start (" y" ++ nl) EOF) = None /\
  filter isCommit
    (effects (commitRunE bothInstalled "" false) (start (" y" ++ nl) EOF))
    = [EvRun "git" ["commit"; "-m"; "feat: add f"]].
Proof.
  repeat split; try discriminate; vm_compute; reflexivity.
Qed.

(** C6. With [--dry-run] the command never runs [git commit] and never
    reads standard input, which it leaves untouched, whatever it holds;
    and once a message is generated it prints the message and returns
    without an error. *)
Theorem dry_run_never_commits (env : Env) (model : string) (p : Process) :
  filter isCommit (effects (commitRunE env model true) p) = [] /\
  filter isStdinRead (effects (commitRunE env model true) p) = [] /\
  stdin (execState (commitRunE env model true) p) = stdin p /\
  (forall d msg p2,
     generates env model p d msg p2 ->
     evalState (commitRunE env model true) p = None /\
     effects (commitRunE env model true) p
       = (diffEvents ++ dispatchEvents env model (commitPrompt (commitDiff d))
            ++ [EvPrint (suggested (strings.TrimSpace msg))])%list).
Proof.
  assert (Hall : exists r es,
             runState (commitRunE env model true) p = (r, log p es) /\
             filter isCommit es = [] /\ filter isStdinRead es = []).
  { destruct (cmdOutput env "git" ["diff"; "--cached"]) as [d [e|]] eqn:Hd.
    - rewrite (run_commit_diff_failed _ _ _ _ _ _ Hd). now eexists _, _.
    - destruct (String.eqb_spec d "") as [->|Hne].
      + rewrite (run_commit_nothing_staged _ _ _ _ Hd). now eexists _, _.
      + rewrite (run_commit_staged _ _ _ _ _ Hd Hne).
        destruct (dispatchAnswer env model (commitPrompt (commitDiff d)))
          as [m [e|]].
        * eexists _, _. split; [reflexivity|].
          rewrite !filter_app, dispatch_no_commit, dispatch_no_read.
          now split.
        * rewrite run_confirm_dry, log_log.
          eexists _, _. split; [reflexivity|].
          rewrite !filter_app, dispatch_no_commit, dispatch_no_read.
          now split. }
  destruct Hall as (r & es & R & Hc & Hs).
  destruct (run_split _ _ _ _ _ R eq_refl) as [_ He]. rewrite He.
  split; [exact Hc|]. split; [exact Hs|]. split.
  - unfold execState. now rewrite R.
  - intros d msg p2 G.
    pose proof (run_commit_generated env model true p d msg p2 G) as R'.
    destruct (generates_inv _ _ _ _ _ _ G) as [_ ->].
    rewrite run_confirm_dry, log_log, <- app_assoc in R'.
    rewrite <- He. apply (run_split _ _ _ _ _ R'). reflexivity.
Qed.

Lemma dry_run_never_commits_witness :
  evalState (commitRunE bothInstalled "" true) (start ("yes" ++ nl) EOF) = None /\
  effects (commitRunE bothInstalled "" true) (start ("yes" ++ nl) EOF)
    = (diffEvents ++
       dispatchEvents bothInstalled "" (commitPrompt (commitDiff shortDiff)) ++
       [EvPrint (suggested (strings.TrimSpace "feat: add f"))])%list.
Proof.
  apply (proj2 (proj2 (proj2
    (dry_run_never_commits bothInstalled "" (start ("yes" ++ nl) EOF))))
    shortDiff "feat: add f"
    (execState (askAI bothInstalled (commitPrompt (commitDiff shortDiff)) "")
       (log (start ("yes" ++ nl) EOF) diffEvents))).
  run_generates.
Defined.

(** C9. When the user declines the generated message the command returns
    no error, so the process ends with status zero; "Commit cancelled." is
    the last thing it does, and no commit was run. *)
Theorem declined_message_is_no_error (env : Env) (model : string)
    (p : Process) (d msg : string) (p2 : Process) :
  generates env model p d msg p2 ->
  let response :=
    strings.TrimSpace (strings.ToLower (fst (cutAfter LF (stdin p)))) in
  response <> "" -> response <> "y" -> response <> "yes" ->
  evalState (commitRunE env model false) p = None /\
  exitStatus (evalState (commitRunE env model false) p) = 0 /\
  filter isCommit (effects (commitRunE env model false) p) = [] /\
  last (effects (commitRunE env model false) p) EvReadStdin
    = EvPrint ("Commit cancelled." ++ nl).
Proof.
  intros G response H1 H2 H3.
  destruct (proj2 (run_commit_interactive env model p d msg p2 G) H1 H2 H3)
    as [Hr He].
  rewrite Hr, He. split; [reflexivity|]. split; [reflexivity|]. split.
  - rewrite !app_assoc, <- (app_assoc diffEvents), filter_app.
    now rewrite no_commit_before.
  - now rewrite !app_assoc, last_last.
Qed.

Lemma declined_message_is_no_error_witness :
  evalState (commitRunE codexOnly "" false) (start ("No thanks" ++ nl) EOF) = None /\
  exitStatus
    (evalState (commitRunE codexOnly "" false) (start ("No thanks" ++ nl) EOF)) = 0 /\
  filter isCommit
    (effects (commitRunE codexOnly "" false) (start ("No thanks" ++ nl) EOF)) = [] /\
  last (effects (commitRunE codexOnly "" false) (start ("No thanks" ++ nl) EOF))
    EvReadStdin = EvPrint ("Commit cancelled." ++ nl).
Proof.
  apply (declined_message_is_no_error codexOnly "" (start ("No thanks" ++ nl) EOF)
           shortDiff "feat: add f"
           (execState (askAI codexOnly (commitPrompt (commitDiff shortDiff)) "")
              (log (start ("No thanks" ++ nl) EOF) diffEvents)));
    [run_generates | discriminate ..].
Defined.

(** C10. When the read of the confirmation ends in an error (the input
    ends before a newline, by end of file or otherwise), the error is
    dropped: the bytes read so far, which are all that was left of the
    input, are the response, and decide as a full line would.  When
    nothing at all was read the response is empty and the commit is run. *)
Theorem read_error_is_ignored (env : Env) (model : string) (p : Process)
    (d msg : string) (p2 : Process) (partial : string) (err : error) :
  generates env model p d msg p2 ->
  evalState (ReadString LF) p2 = (partial, Some err) ->
  let message := strings.TrimSpace msg in
  let response := strings.TrimSpace (strings.ToLower partial) in
  (partial = stdin p /\ err = stdinEnd p) /\
  (response = "" \/ response = "y" \/ response = "yes" ->
     evalState (commitRunE env model false) p
       = commitResult (cmdRun env "git" ["commit"; "-m"; message]) /\
     filter isCommit (effects (commitRunE env model false) p)
       = [EvRun "git" ["commit"; "-m"; message]]) /\
  (response <> "" -> response <> "y" -> response <> "yes" ->
     evalState (commitRunE env model false) p = None /\
     filter isCommit (effects (commitRunE env model false) p) = []) /\
  (partial = "" ->
     evalState (commitRunE env model false) p
       = commitResult (cmdRun env "git" ["commit"; "-m"; message]) /\
     filter isCommit (effects (commitRunE env model false) p)
       = [EvRun "git" ["commit"; "-m"; message]]).
Proof.
  intros G Hread message response.
  destruct (run_commit_interactive env model p d msg p2 G) as [Hyes Hno].
  destruct (generates_inv _ _ _ _ _ _ G) as [_ ->].
  unfold evalState in Hread. rewrite run_ReadString in Hread.
  cbn [fst stdin log] in Hread.
  assert (Hp : fst (cutAfter LF (stdin p)) = partial) by now inversion Hread.
  assert (Hn : snd (cutAfter LF (stdin p)) = None).
  { destruct (snd (cutAfter LF (stdin p))); [discriminate | reflexivity]. }
  rewrite Hn in Hread. rewrite Hp in Hyes, Hno.
  fold message response in Hyes, Hno.
  assert (Yes : response = "" \/ response = "y" \/ response = "yes" ->
     evalState (commitRunE env model false) p
       = commitResult (cmdRun env "git" ["commit"; "-m"; message]) /\
     filter isCommit (effects (commitRunE env model false) p)
       = [EvRun "git" ["commit"; "-m"; message]]).
  { intros Hy. destruct (Hyes Hy) as [Hr He]. rewrite He.
    split; [exact Hr|].
    rewrite !app_assoc, <- (app_assoc diffEvents), filter_app.
    now rewrite no_commit_before. }
  split; [|split; [exact Yes|split]].
  - split; [|now inversion Hread].
    rewrite <- Hp. now apply cutAfter_none.
  - intros H1 H2 H3. destruct (Hno H1 H2 H3) as [Hr He]. rewrite He.
    split; [exact Hr|].
    rewrite !app_assoc, <- (app_assoc diffEvents), filter_app.
    now rewrite no_commit_before.
  - intros E. apply Yes. left. unfold response. now rewrite E.
Qed.

Lemma read_error_is_ignored_witness :
  (evalState (commitRunE bothInstalled "" false) (start "" EOF) = None /\
   filter isCommit (effects (commitRunE bothInstalled "" false) (start "" EOF))
     = [EvRun "git" ["commit"; "-m"; "feat: add f"]]) /\
  (evalState (commitRunE bothInstalled "" false) (start "Y" EOF) = None /\
   filter isCommit (effects (commitRunE bothInstalled "" false) (start "Y" EOF))
     = [EvRun "git" ["commit"; "-m"; "feat: add f"]]) /\
  (evalState (commitRunE bothInstalled "" false) (start "n" EOF) = None /\
   filter isCommit (effects (commitRunE bothInstalled "" false) (start "n" EOF))
     = []) /\
  (evalState (commitRunE bothInstalled "" false)
     (start (noBreakSpace ++ "y") EOF) = None /\
   filter isCommit
     (effects (commitRunE bothInstalled "" false)
        (start (noBreakSpace ++ "y") EOF))
     = [EvRun "git" ["commit"; "-m"; "feat: add f"]]).
Proof.
  split; [|split; [|split]].
  - apply (proj2 (proj2 (proj2
      (read_error_is_ignored bothInstalled "" (start "" EOF) shortDiff
         "feat: add f"
         (execState (askAI bothInstalled (commitPrompt (commitDiff shortDiff)) "")
            (log (start "" EOF) diffEvents))
         "" EOF ltac:(run_generates) eq_refl)))).
    reflexivity.
  - apply (proj1 (proj2
      (read_error_is_ignored bothInstalled "" (start "Y" EOF) shortDiff
         "feat: add f"
         (execState (askAI bothInstalled (commitPrompt (commitDiff shortDiff)) "")
            (log (start "Y" EOF) diffEvents))
         "Y" EOF ltac:(run_generates) eq_refl))).
    right. left. reflexivity.
  - apply (proj1 (proj2 (proj2
      (read_error_is_ignored bothInstalled "" (start "n" EOF) shortDiff
         "feat: add f"
         (execState (askAI bothInstalled (commitPrompt (commitDiff shortDiff)) "")
            (log (start "n" EOF) diffEvents))
         "n" EOF ltac:(run_generates) eq_refl))));
      discriminate.
  - apply (proj1 (proj2
      (read_error_is_ignored bothInstalled "" (start (noBreakSpace ++ "y") EOF)
         shortDiff "feat: add f"
         (execState (askAI bothInstalled (commitPrompt (commitDiff shortDiff)) "")
            (log (start (noBreakSpace ++ "y") EOF) diffEvents))
         (noBreakSpace ++ "y") EOF ltac:(run_generates) eq_refl))).
    right. left. reflexivity.
Defined.

(** ** The ask command *)

Lemma run_deriveQuestion_args args p :
  args <> [] ->
  runState (deriveQuestion args) p = (strings.Join args " ", p).
Proof. destruct args; [contradiction | reflexivity]. Qed.

Lemma run_deriveQuestion_stdin p :
  runState (deriveQuestion []) p =
  (strings.Join (scanLoop "" (stdin p)) nl, log (consumeAll p) [EvReadStdin]).
Proof. reflexivity. Qed.

(** [deriveQuestion] logs at most a read, and leaves the rest alone. *)
Lemma run_deriveQuestion args p :
  exists q es,
    runState (deriveQuestion args) p = (evalState (deriveQuestion args) p, log q es) /\
    trace q = trace p /\
    effects (deriveQuestion args) p = es /\
    (es = [] \/ es = [EvReadStdin]).
Proof.
  destruct args as [|a args].
  - pose proof (run_deriveQuestion_stdin p) as R.
    destruct (run_split _ _ _ _ _ R eq_refl) as [Hr He].
    exists (consumeAll p), [EvReadStdin]. rewrite Hr. auto.
  - pose proof (run_deriveQuestion_args (a :: args) p ltac:(discriminate)) as R.
    rewrite <- (log_nil p) in R at 2.
    destruct (run_split _ _ _ _ _ R eq_refl) as [Hr He].
    exists p, []. rewrite Hr. auto.
Qed.

Lemma run_askRunE env model args p q p1 :
  outResolve env = None ->
  runState (deriveQuestion args) p = (q, p1) ->
  runState (askRunE env model args) p =
  if String.eqb (strings.TrimSpace q) "" then
    (Some (errorString "no question provided"), p1)
  else
    (reportResult env q (dispatchAnswer env model q),
     log p1 (dispatchEvents env model q
               ++ reportEvents env q (dispatchAnswer env model q))).
Proof.
  intros Hres Hq. unfold askRunE. rewrite Hres. run_steps. rewrite Hq.
  destruct (String.eqb (strings.TrimSpace q) ""); run_steps; [reflexivity|].
  rewrite run_askAI_dispatch. run_steps.
  unfold reportResult, reportEvents.
  destruct (dispatchAnswer env model q) as [r [e|]]; run_steps.
  - now rewrite app_nil_r.
  - destruct (outIsJSON env); run_steps; reflexivity.
Qed.

Lemma run_askRunE_unresolved env model args p e :
  outResolve env = Some e ->
  runState (askRunE env model args) p = (Some e, p).
Proof. intros H. unfold askRunE. now rewrite H. Qed.

(** *** White space *)

Section Runes.

Local Open Scope list_scope.
Local Open Scope nat_scope.

(** *** UTF-8 decoding *)

Ltac all_bytes c := destruct c as [[] [] [] [] [] [] [] []].

Lemma IsSpace_ascii c :
  (utf8.byte c <? utf8.RuneSelf)%N = true ->
  unicode.IsSpace (utf8.byte c) = strings.asciiSpace c.
Proof. all_bytes c; vm_compute; intros H; reflexivity || discriminate H. Qed.

Lemma RuneStart_spec c :
  utf8.RuneStart c = negb ((0x80 <=? utf8.byte c) && (utf8.byte c <=? 0xBF))%N.
Proof. all_bytes c; reflexivity. Qed.

Lemma first_AS c :
  utf8.first c = utf8.AS <-> (utf8.byte c <? utf8.RuneSelf)%N = true.
Proof.
  unfold utf8.first, utf8.RuneSelf.
  destruct (utf8.byte c <? 0x80)%N; [tauto|].
  split; [|discriminate].
  repeat match goal with
         | |- context [if ?b then _ else _] => destruct b
         end; discriminate.
Qed.

Lemma first_Lead c sz lo hi :
  utf8.first c = utf8.Lead sz lo hi ->
  2 <= sz <= 4 /\ (0x80 <= lo)%N /\ (hi <= 0xBF)%N /\
  (utf8.RuneSelf <=? utf8.byte c)%N = true /\ utf8.RuneStart c = true.
Proof.
  rewrite RuneStart_spec. unfold utf8.first, utf8.RuneSelf.
  repeat match goal with
         | |- context [if ?b then _ else _] => destruct b eqn:?
         end; intros H; inversion H; subst;
    repeat match goal with
           | E : (_ <? _)%N = _ |- _ =>
               first [apply N.ltb_lt in E | apply N.ltb_ge in E]
           | E : (_ <=? _)%N = _ |- _ =>
               first [apply N.leb_le in E | apply N.leb_gt in E]
           | E : (_ =? _)%N = _ |- _ =>
               first [apply N.eqb_eq in E | apply N.eqb_neq in E]
           end;
    repeat split; try lia; try (apply N.leb_le; lia);
    apply negb_true_iff, andb_false_iff;
    right; apply N.leb_gt; lia.
Qed.

Lemma RuneStart_outside c lo hi :
  utf8.RuneStart c = true -> (0x80 <= lo)%N -> (hi <= 0xBF)%N ->
  utf8.outside lo hi c = true.
Proof.
  rewrite RuneStart_spec. unfold utf8.outside. intros H Hlo Hhi.
  apply negb_true_iff, andb_false_iff in H.
  apply orb_true_iff.
  destruct H as [H|H]; [left; apply N.leb_gt in H | right; apply N.leb_gt in H];
    apply N.ltb_lt; lia.
Qed.

Lemma ascii_RuneStart c :
  (utf8.byte c <? utf8.RuneSelf)%N = true -> utf8.RuneStart c = true.
Proof. all_bytes c; vm_compute; intros H; reflexivity || discriminate H. Qed.

Lemma IsSpace_RuneError : unicode.IsSpace utf8.RuneError = false.
Proof. reflexivity. Qed.

(** Where the decoding did not fail, the bytes after the rune play no part. *)
Lemma Decode_more p q r size :
  utf8.DecodeRuneInString p = (r, size) ->
  2 <= size \/ (exists c t, p = c :: t /\ utf8.first c = utf8.AS) ->
  utf8.DecodeRuneInString (p ++ q) = (r, size).
Proof.
  unfold utf8.DecodeRuneInString.
  destruct p as [|s0 t]; [intros H [Hs|(c & t & Hc & _)]; [inversion H; lia | discriminate]|].
  cbn [app].
  destruct (utf8.first s0) as [| |sz lo hi] eqn:Hf.
  - auto.
  - intros H [Hs|(c & t' & Hc & Ha)]; [inversion H; lia|].
    inversion Hc; subst. congruence.
  - intros H Hv.
    assert (Hsz : 2 <= size).
    { destruct Hv as [Hs|(c & t' & Hc & Ha)]; [exact Hs|].
      inversion Hc; subst. congruence. }
    clear Hv. revert H.
    change (List.length (s0 :: t ++ q)) with (List.length ((s0 :: t) ++ q)).
    rewrite length_app.
    destruct (Nat.ltb_spec (List.length (s0 :: t)) sz) as [Hl|Hl];
      [intros H; inversion H; lia|].
    destruct (Nat.ltb_spec (List.length (s0 :: t) + List.length q) sz) as [Hl'|Hl']; [lia|].
    destruct t as [|s1 t1]; [intros H; inversion H; lia|]. cbn [app].
    destruct (utf8.outside lo hi s1); [intros H; inversion H; lia|].
    destruct (sz <=? 2); [auto|].
    destruct t1 as [|s2 t2]; [intros H; inversion H; lia|]. cbn [app].
    destruct (utf8.outside 128 191 s2); [intros H; inversion H; lia|].
    destruct (sz <=? 3); [auto|].
    destruct t2 as [|s3 t3]; [intros H; inversion H; lia|]. cbn [app].
    auto.
Qed.


(** A white-space rune is decoded from a complete sequence. *)
Lemma Decode_space p :
  unicode.IsSpace (fst (utf8.DecodeRuneInString p)) = true ->
  2 <= snd (utf8.DecodeRuneInString p) \/
  (exists c t, p = c :: t /\ utf8.first c = utf8.AS).
Proof.
  unfold utf8.DecodeRuneInString.
  destruct p as [|s0 t]; [discriminate|].
  destruct (utf8.first s0) as [| |sz lo hi] eqn:Hf.
  - intros _. right. now exists s0, t.
  - discriminate.
  - destruct (List.length (s0 :: t) <? sz); [discriminate|].
    destruct t as [|s1 t1]; [discriminate|].
    destruct (utf8.outside lo hi s1); [discriminate|].
    destruct (sz <=? 2); [intros _; left; cbn; lia|].
    destruct t1 as [|s2 t2]; [discriminate|].
    destruct (utf8.outside 128 191 s2); [discriminate|].
    destruct (sz <=? 3); [intros _; left; cbn; lia|].
    destruct t2 as [|s3 t3]; [discriminate|].
    destruct (utf8.outside 128 191 s3); [discriminate|].
    intros _. left. cbn. lia.
Qed.

(** A byte outside ASCII followed by the start of a rune is a rune of
    one byte. *)
Lemma Decode_lone c q :
  (utf8.RuneSelf <=? utf8.byte c)%N = true -> startsRune q ->
  snd (utf8.DecodeRuneInString (c :: q)) = 1.
Proof.
  intros Hc Hq. unfold utf8.DecodeRuneInString.
  destruct (utf8.first c) as [| |sz lo hi] eqn:Hf; try reflexivity.
  destruct (first_Lead _ _ _ _ Hf) as (_ & Hlo & Hhi & _).
  destruct (List.length (c :: q) <? sz); [reflexivity|].
  destruct q as [|s1 t1]; [reflexivity|]. cbn in Hq.
  now rewrite (RuneStart_outside _ _ _ Hq Hlo Hhi).
Qed.

Lemma DecodeLast_rev_cases rs0 r size :
  rs0 <> [] -> utf8.DecodeLastRuneInString (rev rs0) = (r, size) ->
  LastRune (rev rs0) r size.
Proof.
  intros Hne. unfold utf8.DecodeLastRuneInString, utf8.lastStart.
  rewrite rev_involutive.
  destruct rs0 as [|c rs]; [now elim Hne|]. clear Hne.
  cbn [rev].
  destruct (utf8.byte c <? utf8.RuneSelf)%N eqn:Hc.
  { intros H. inversion H. now apply LastASCII with (pre := rev rs) (c := c). }
  assert (Hinv : forall pre, (utf8.RuneError, 1) = (r, size) ->
                             LastRune (pre ++ [c]) r size).
  { intros pre H. inversion H. now apply LastInvalid with (pre := pre) (c := c). }
  destruct rs as [|c1 rs1]; [apply Hinv|].
  destruct (utf8.RuneStart c1) eqn:H1.
  { destruct (utf8.DecodeRuneInString [c1; c]) as [r0 size0] eqn:Hd.
    destruct (Nat.eqb_spec size0 (List.length [c1; c])) as [He|He]; [|apply Hinv].
    intros H. injection H as <- <-.
    apply LastSequence with (pre := rev rs1) (c := c1) (seg := [c]);
      [cbn [rev]; now rewrite <- !app_assoc | discriminate | assumption
      | now rewrite Hd, He | exact He]. }
  destruct rs1 as [|c2 rs2]; [apply Hinv|].
  destruct (utf8.RuneStart c2) eqn:H2.
  { destruct (utf8.DecodeRuneInString [c2; c1; c]) as [r0 size0] eqn:Hd.
    destruct (Nat.eqb_spec size0 (List.length [c2; c1; c])) as [He|He]; [|apply Hinv].
    intros H. injection H as <- <-.
    apply LastSequence with (pre := rev rs2) (c := c2) (seg := [c1; c]);
      [cbn [rev]; now rewrite <- !app_assoc | discriminate | assumption
      | now rewrite Hd, He | exact He]. }
  destruct rs2 as [|c3 rs3]; [apply Hinv|].
  destruct (utf8.RuneStart c3) eqn:H3; [|apply Hinv].
  destruct (utf8.DecodeRuneInString [c3; c2; c1; c]) as [r0 size0] eqn:Hd.
  destruct (Nat.eqb_spec size0 (List.length [c3; c2; c1; c])) as [He|He]; [|apply Hinv].
  intros H. injection H as <- <-.
  apply LastSequence with (pre := rev rs3) (c := c3) (seg := [c2; c1; c]);
    [cbn [rev]; now rewrite <- !app_assoc | discriminate | assumption
    | now rewrite Hd, He | exact He].
Qed.

Lemma DecodeLast_cases s r size :
  s <> [] -> utf8.DecodeLastRuneInString s = (r, size) -> LastRune s r size.
Proof.
  intros Hne. rewrite <- (rev_involutive s). apply DecodeLast_rev_cases.
  intros E. apply Hne. now rewrite <- (rev_involutive s), E.
Qed.

(** *** Trimming *)

Lemma Decode_long_lead c seg r size :
  utf8.DecodeRuneInString (c :: seg) = (r, size) -> 2 <= size ->
  (utf8.RuneSelf <=? utf8.byte c)%N = true.
Proof.
  unfold utf8.DecodeRuneInString.
  destruct (utf8.first c) as [| |sz lo hi] eqn:Hf.
  - intros H; inversion H; lia.
  - intros H; inversion H; lia.
  - intros _ _. now destruct (first_Lead _ _ _ _ Hf) as (_ & _ & _ & H & _).
Qed.

Lemma firstn_length_app {A} (a b : list A) : firstn (List.length a) (a ++ b) = a.
Proof. induction a; cbn; [reflexivity | now f_equal]. Qed.

Lemma skipn_length_app {A} (a b : list A) : skipn (List.length a) (a ++ b) = b.
Proof. induction a; cbn; [reflexivity | assumption]. Qed.

(** The end of [TrimRightFunc]: from the start of the last rune kept, the
    slice goes up to the end of that rune. *)
Lemma TrimRight_finish_app t q r size :
  t <> [] ->
  utf8.DecodeLastRuneInString t = (r, size) ->
  startsRune q ->
  (if (utf8.RuneSelf <=? utf8.byte (nth (List.length t - size) (t ++ q) zero))%N
   then firstn (List.length t - size
                + snd (utf8.DecodeRuneInString (skipn (List.length t - size) (t ++ q))))
          (t ++ q)
   else firstn (List.length t - size + 1) (t ++ q)) = t.
Proof.
  intros Hne Hd Hq.
  destruct (DecodeLast_cases _ _ _ Hne Hd)
    as [pre c Ht Hc -> -> | pre c Ht Hc -> -> | pre c seg Ht Hseg Hc Hdec Hsz].
  - subst t. rewrite length_app. cbn [length].
    replace (List.length pre + 1 - 1) with (List.length pre) by lia.
    rewrite <- app_assoc. cbn [app]. rewrite nth_middle.
    apply N.ltb_lt in Hc.
    destruct (N.leb_spec utf8.RuneSelf (utf8.byte c)); [lia|].
    change (pre ++ c :: q) with (pre ++ [c] ++ q). rewrite app_assoc.
    replace (List.length pre + 1) with (List.length (pre ++ [c]))
      by (rewrite length_app; reflexivity).
    apply firstn_length_app.
  - subst t. rewrite length_app. cbn [length].
    replace (List.length pre + 1 - 1) with (List.length pre) by lia.
    rewrite <- app_assoc. cbn [app]. rewrite nth_middle.
    apply N.ltb_ge in Hc. apply N.leb_le in Hc. rewrite Hc.
    rewrite skipn_length_app, (Decode_lone c _ Hc Hq).
    change (pre ++ c :: q) with (pre ++ [c] ++ q). rewrite app_assoc.
    replace (List.length pre + 1) with (List.length (pre ++ [c]))
      by (rewrite length_app; reflexivity).
    apply firstn_length_app.
  - assert (Hs2 : 2 <= size).
    { rewrite Hsz. destruct seg; [congruence | cbn; lia]. }
    subst t. rewrite length_app.
    replace (List.length pre + List.length (c :: seg) - size) with (List.length pre) by lia.
    rewrite <- app_assoc. rewrite skipn_length_app.
    rewrite (Decode_more _ q _ _ Hdec (or_introl Hs2)). cbn [snd].
    cbn [app]. rewrite nth_middle.
    rewrite (Decode_long_lead _ _ _ _ Hdec Hs2).
    change (pre ++ c :: seg ++ q) with (pre ++ (c :: seg) ++ q).
    rewrite app_assoc.
    replace (List.length pre + size) with (List.length (pre ++ c :: seg))
      by (rewrite length_app; lia).
    apply firstn_length_app.
Qed.

Lemma TrimRight_finish s i r size :
  0 < i <= List.length s ->
  utf8.DecodeLastRuneInString (firstn i s) = (r, size) ->
  startsRune (skipn i s) ->
  (if (utf8.RuneSelf <=? utf8.byte (nth (i - size) s zero))%N
   then firstn (i - size + snd (utf8.DecodeRuneInString (skipn (i - size) s))) s
   else firstn (i - size + 1) s) = firstn i s.
Proof.
  intros Hi Hd Hq.
  assert (Hlen : List.length (firstn i s) = i) by (rewrite length_firstn; lia).
  assert (Hne : firstn i s <> []).
  { intros E. rewrite E in Hlen. cbn in Hlen. lia. }
  pose proof (TrimRight_finish_app _ _ _ _ Hne Hd Hq) as F.
  now rewrite firstn_skipn, Hlen in F.
Qed.

Lemma lastIndexLoop_spec s : forall fuel i,
  i <= List.length s -> startsRune (skipn i s) ->
  match strings.lastIndexLoop unicode.IsSpace false s fuel i with
  | None => True
  | Some j =>
      exists i' r size,
        0 < i' <= List.length s /\
        utf8.DecodeLastRuneInString (firstn i' s) = (r, size) /\
        unicode.IsSpace r = false /\
        j = i' - size /\
        startsRune (skipn i' s)
  end.
Proof.
  induction fuel as [|fuel IH]; intros i Hi Hq; [exact I|].
  cbn [strings.lastIndexLoop].
  destruct (Nat.eqb_spec i 0) as [|Hi0]; [exact I|].
  destruct (utf8.DecodeLastRuneInString (firstn i s)) as [r size] eqn:Hd.
  destruct (unicode.IsSpace r) eqn:Hsp; cbn [Bool.eqb].
  - apply IH; [lia|].
    assert (Hlen : List.length (firstn i s) = i) by (rewrite length_firstn; lia).
    assert (Hne : firstn i s <> []).
    { intros E. rewrite E in Hlen. cbn in Hlen. lia. }
    pose proof (firstn_skipn i s) as Hs.
    destruct (DecodeLast_cases _ _ _ Hne Hd)
      as [pre c Ht Hc -> -> | pre c Ht Hc -> -> | pre c seg Ht Hseg Hc Hdec Hsz].
    + rewrite Ht, length_app in Hlen. cbn in Hlen.
      replace (i - 1) with (List.length pre) by lia.
      rewrite <- Hs, Ht, <- app_assoc, skipn_app, skipn_all, Nat.sub_diag.
      cbn. now apply ascii_RuneStart.
    + discriminate Hsp.
    + rewrite Ht, length_app in Hlen.
      replace (i - size) with (List.length pre) by lia.
      rewrite <- Hs, Ht, <- app_assoc, skipn_app, skipn_all, Nat.sub_diag.
      cbn. exact Hc.
  - exists i, r, size. repeat split; try lia; assumption.
Qed.

(** The loop never runs out of fuel before it runs out of bytes. *)
Lemma lastIndexLoop_fuel f truth s : forall fuel i,
  i <= fuel -> i <= List.length s ->
  strings.lastIndexLoop f truth s (S fuel) i
    = strings.lastIndexLoop f truth s fuel i.
Proof.
  induction fuel as [|fuel IH]; intros i Hi Hs.
  - assert (i = 0) by lia. subst. reflexivity.
  - cbn [strings.lastIndexLoop] in *.
    destruct (Nat.eqb_spec i 0) as [|Hi0]; [reflexivity|].
    destruct (utf8.DecodeLastRuneInString (firstn i s)) as [r size] eqn:Hd.
    destruct (Bool.eqb (f r) truth); [reflexivity|].
    assert (Hsz : 1 <= size).
    { destruct (firstn i s) as [|a l] eqn:E.
      - apply (f_equal (@List.length ascii)) in E.
        rewrite length_firstn in E. cbn in E. lia.
      - assert (Hne : a :: l <> []) by discriminate.
        destruct (DecodeLast_cases _ _ _ Hne Hd)
          as [? ? _ _ _ -> | ? ? _ _ _ -> | ? ? ? _ _ _ _ ->]; cbn; lia. }
    apply IH; lia.
Qed.

Lemma TrimRightFunc_spec s :
  (exists rest, s = strings.TrimRightFunc s unicode.IsSpace ++ rest) /\
  goodLast (strings.TrimRightFunc s unicode.IsSpace).
Proof.
  unfold strings.TrimRightFunc, strings.lastIndexFunc.
  pose proof (lastIndexLoop_spec s (List.length s) (List.length s) (le_n _)) as L.
  rewrite skipn_all in L. specialize (L I).
  destruct (strings.lastIndexLoop unicode.IsSpace false s (List.length s) (List.length s))
    as [j|].
  - destruct L as (i' & r & size & Hi & Hd & Hsp & -> & Hq).
    rewrite (TrimRight_finish s i' r size Hi Hd Hq). split.
    + exists (skipn i' s). now rewrite firstn_skipn.
    + unfold goodLast. now rewrite Hd.
  - split; [now exists s | reflexivity].
Qed.

Lemma TrimRightFunc_fix s :
  goodLast s -> strings.TrimRightFunc s unicode.IsSpace = s.
Proof.
  intros G. unfold strings.TrimRightFunc, strings.lastIndexFunc.
  destruct s as [|a l] eqn:Es; [reflexivity|]. rewrite <- Es in *.
  assert (Hlen : 0 < List.length s <= List.length s) by (rewrite Es; cbn; lia).
  destruct (List.length s) as [|n] eqn:El; [lia|].
  cbn [strings.lastIndexLoop Nat.eqb]. rewrite <- El, firstn_all.
  destruct (utf8.DecodeLastRuneInString s) as [r size] eqn:Hd.
  unfold goodLast in G. rewrite Hd in G. cbn [fst] in G. rewrite G.
  cbn [Bool.eqb].
  rewrite <- (firstn_all s) in Hd.
  rewrite (TrimRight_finish s (List.length s) r size); auto.
  - apply firstn_all.
  - lia.
  - now rewrite skipn_all.
Qed.

Lemma goodHead_prefix v w : goodHead (v ++ w) -> goodHead v.
Proof.
  unfold goodHead. intros H.
  destruct (unicode.IsSpace (fst (utf8.DecodeRuneInString v))) eqn:E;
    [|reflexivity].
  pose proof (Decode_space v E) as V.
  destruct (utf8.DecodeRuneInString v) as [r size] eqn:Hd. cbn [fst snd] in *.
  rewrite (Decode_more v w r size Hd V) in H. cbn [fst] in H. congruence.
Qed.

Lemma indexLoop_spec s : forall skip i,
  match strings.indexLoop unicode.IsSpace false s skip i with
  | None => True
  | Some j =>
      exists pre u, s = pre ++ u /\ j = i + List.length pre /\ goodHead u
  end.
Proof.
  induction s as [|c r IH]; intros skip i; [exact I|].
  cbn [strings.indexLoop]. destruct skip as [|k].
  - destruct (utf8.DecodeRuneInString (c :: r)) as [rn size] eqn:Hd.
    destruct (unicode.IsSpace rn) eqn:Hsp; cbn [Bool.eqb].
    + specialize (IH (size - 1) (S i)).
      destruct (strings.indexLoop unicode.IsSpace false r (size - 1) (S i));
        [|exact I].
      destruct IH as (pre & u & -> & -> & G).
      exists (c :: pre), u. cbn [app length]. repeat split; [lia | exact G].
    + exists [], (c :: r). cbn [app length]. repeat split; [lia|].
      unfold goodHead. now rewrite Hd.
  - specialize (IH k (S i)).
    destruct (strings.indexLoop unicode.IsSpace false r k (S i)); [|exact I].
    destruct IH as (pre & u & -> & -> & G).
    exists (c :: pre), u. cbn [app length]. repeat split; [lia | exact G].
Qed.

Lemma TrimLeftFunc_spec s :
  (exists pre, s = pre ++ strings.TrimLeftFunc s unicode.IsSpace) /\
  goodHead (strings.TrimLeftFunc s unicode.IsSpace).
Proof.
  unfold strings.TrimLeftFunc, strings.indexFunc.
  pose proof (indexLoop_spec s 0 0) as L.
  destruct (strings.indexLoop unicode.IsSpace false s 0 0) as [j|].
  - destruct L as (pre & u & -> & -> & G). cbn [Nat.add].
    rewrite skipn_length_app. split; [now exists pre | exact G].
  - split; [exists s; now rewrite app_nil_r | reflexivity].
Qed.

Lemma TrimLeftFunc_fix s :
  goodHead s -> strings.TrimLeftFunc s unicode.IsSpace = s.
Proof.
  intros G. unfold strings.TrimLeftFunc, strings.indexFunc.
  destruct s as [|c r]; [reflexivity|].
  cbn [strings.indexLoop]. unfold goodHead in G.
  destruct (utf8.DecodeRuneInString (c :: r)) as [rn size]. cbn [fst] in G.
  now rewrite G.
Qed.

Lemma Decode_ascii c t :
  (utf8.RuneSelf <=? utf8.byte c)%N = false ->
  utf8.DecodeRuneInString (c :: t) = (utf8.byte c, 1).
Proof.
  intros H. unfold utf8.DecodeRuneInString.
  assert (Ha : utf8.first c = utf8.AS).
  { apply first_AS. apply N.leb_gt in H. now apply N.ltb_lt. }
  now rewrite Ha.
Qed.

Lemma DecodeLast_ascii pre c :
  (utf8.RuneSelf <=? utf8.byte c)%N = false ->
  utf8.DecodeLastRuneInString (pre ++ [c]) = (utf8.byte c, 1).
Proof.
  intros H. unfold utf8.DecodeLastRuneInString.
  rewrite rev_app_distr. cbn [rev app].
  apply N.leb_gt in H. apply N.ltb_lt in H. now rewrite H.
Qed.

Lemma ascii_lt c :
  (utf8.RuneSelf <=? utf8.byte c)%N = false ->
  (utf8.byte c <? utf8.RuneSelf)%N = true.
Proof. intros H. apply N.leb_gt in H. now apply N.ltb_lt. Qed.

Lemma trimSpaceEnd_spec rs :
  (exists rest, rev rs = strings.trimSpaceEnd rs ++ rest) /\
  goodLast (strings.trimSpaceEnd rs).
Proof.
  induction rs as [|c r IH]; [split; [now exists [] | reflexivity]|].
  cbn [strings.trimSpaceEnd].
  destruct (utf8.RuneSelf <=? utf8.byte c)%N eqn:Hc.
  - apply TrimRightFunc_spec.
  - destruct (strings.asciiSpace c) eqn:Hsp.
    + destruct IH as [[rest Hr] G]. split; [|exact G].
      exists (rest ++ [c]). cbn [rev]. now rewrite Hr, app_assoc.
    + split; [exists []; now rewrite app_nil_r|].
      unfold goodLast. cbn [rev]. rewrite (DecodeLast_ascii _ _ Hc). cbn [fst].
      now rewrite (IsSpace_ascii _ (ascii_lt _ Hc)).
Qed.

Lemma trimSpaceEnd_fix rs :
  goodLast (rev rs) -> strings.trimSpaceEnd rs = rev rs.
Proof.
  destruct rs as [|c r]; [reflexivity|]. intros G.
  cbn [strings.trimSpaceEnd].
  destruct (utf8.RuneSelf <=? utf8.byte c)%N eqn:Hc.
  - now apply TrimRightFunc_fix.
  - unfold goodLast in G. cbn [rev] in G.
    rewrite (DecodeLast_ascii _ _ Hc) in G. cbn [fst] in G.
    rewrite (IsSpace_ascii _ (ascii_lt _ Hc)) in G. now rewrite G.
Qed.

(** What [TrimSpace] returns is a slice of its argument that neither
    begins nor ends with a white-space rune. *)
Lemma trimSpaceFrom_spec s :
  goodHead (strings.trimSpaceFrom s) /\ goodLast (strings.trimSpaceFrom s).
Proof.
  induction s as [|c r IH]; [split; reflexivity|].
  cbn [strings.trimSpaceFrom].
  destruct (utf8.RuneSelf <=? utf8.byte c)%N eqn:Hc.
  - unfold strings.TrimFunc.
    destruct (TrimLeftFunc_spec (c :: r)) as [_ GL].
    destruct (TrimRightFunc_spec (strings.TrimLeftFunc (c :: r) unicode.IsSpace))
      as [[rest Hr] GR].
    split; [|exact GR]. rewrite Hr in GL. now apply goodHead_prefix in GL.
  - destruct (strings.asciiSpace c) eqn:Hsp; [exact IH|].
    destruct (trimSpaceEnd_spec (rev (c :: r))) as [[rest Hr] GR].
    split; [|exact GR]. rewrite rev_involutive in Hr.
    apply goodHead_prefix with (w := rest). rewrite <- Hr.
    unfold goodHead. rewrite (Decode_ascii _ _ Hc). cbn [fst].
    now rewrite (IsSpace_ascii _ (ascii_lt _ Hc)).
Qed.

Lemma trimSpaceFrom_fix t :
  goodHead t -> goodLast t -> strings.trimSpaceFrom t = t.
Proof.
  destruct t as [|c r]; [reflexivity|]. intros GH GL.
  cbn [strings.trimSpaceFrom].
  destruct (utf8.RuneSelf <=? utf8.byte c)%N eqn:Hc.
  - unfold strings.TrimFunc.
    now rewrite (TrimLeftFunc_fix _ GH), (TrimRightFunc_fix _ GL).
  - unfold goodHead in GH. rewrite (Decode_ascii _ _ Hc) in GH. cbn [fst] in GH.
    rewrite (IsSpace_ascii _ (ascii_lt _ Hc)) in GH. rewrite GH.
    rewrite trimSpaceEnd_fix; rewrite rev_involutive; [reflexivity | exact GL].
Qed.

Lemma trimSpaceFrom_idem s :
  strings.trimSpaceFrom (strings.trimSpaceFrom s) = strings.trimSpaceFrom s.
Proof. apply trimSpaceFrom_fix; apply trimSpaceFrom_spec. Qed.

Lemma indexLoop_None_shift f truth s : forall skip i i',
  strings.indexLoop f truth s skip i = None ->
  strings.indexLoop f truth s skip i' = None.
Proof.
  induction s as [|c r IH]; intros skip i i'; [reflexivity|].
  cbn [strings.indexLoop]. destruct skip as [|k]; [|apply IH].
  destruct (utf8.DecodeRuneInString (c :: r)) as [rn size].
  destruct (Bool.eqb (f rn) truth); [discriminate | apply IH].
Qed.

(** A string of white-space runes only is trimmed to nothing. *)
Lemma trimSpaceFrom_blank s :
  strings.indexFunc s unicode.IsSpace false = None ->
  strings.trimSpaceFrom s = [].
Proof.
  induction s as [|c r IH]; [reflexivity|]. intros H.
  cbn [strings.trimSpaceFrom].
  destruct (utf8.RuneSelf <=? utf8.byte c)%N eqn:Hc.
  - unfold strings.TrimFunc, strings.TrimLeftFunc. now rewrite H.
  - unfold strings.indexFunc in H. cbn [strings.indexLoop] in H.
    rewrite (Decode_ascii _ _ Hc) in H. cbn [Nat.sub] in H.
    rewrite (IsSpace_ascii _ (ascii_lt _ Hc)) in H.
    destruct (strings.asciiSpace c); [|discriminate].
    cbn [Bool.eqb] in H. apply IH.
    exact (indexLoop_None_shift _ _ _ _ _ 0 H).
Qed.


End Runes.


(** Trimming twice is trimming once. *)
Lemma TrimSpace_idem s :
  strings.TrimSpace (strings.TrimSpace s) = strings.TrimSpace s.
Proof.
  unfold strings.TrimSpace.
  now rewrite list_ascii_of_string_of_list_ascii, trimSpaceFrom_idem.
Qed.

(** [TrimSpace] leaves nothing of a string made of white space. *)
Lemma TrimSpace_blank s :
  strings.allSpace s = true -> strings.TrimSpace s = "".
Proof.
  unfold strings.allSpace, strings.TrimSpace. intros H.
  destruct (strings.indexFunc (list_ascii_of_string s) unicode.IsSpace false)
    eqn:E; [discriminate|].
  now rewrite (trimSpaceFrom_blank _ E).
Qed.



(** *** The scanner *)

Lemma append_nil_r (s : string) : s ++ "" = s.
Proof. induction s; cbn; [reflexivity | now rewrite IHs]. Qed.

Lemma dropCR_plain l : endsWith CR l = false -> dropCR l = l.
Proof.
  induction l as [|c l IH]; [reflexivity|].
  destruct l as [|c' l']; cbn in *.
  - now intros ->.
  - intros H. now rewrite (IH H).
Qed.

(** The scanner on a line without newline, followed by a newline. *)
Lemma scanLoop_line l : forall cur rest,
  hasByte LF l = false ->
  scanLoop cur (l ++ nl ++ rest) =
  if tokenFits (cur ++ l) then dropCR (cur ++ l) :: scanLoop "" rest else [].
Proof.
  induction l as [|c l IH]; intros cur rest H.
  - cbn. now rewrite append_nil_r.
  - cbn in H. apply orb_false_iff in H as [Hc Hl].
    cbn [append scanLoop]. rewrite Hc, (IH _ _ Hl), append_assoc_r.
    reflexivity.
Qed.

(** The scanner gives back the lines of a text. *)
Lemma scanLoop_unlines ls :
  forallb plainLine ls = true -> scanLoop "" (unlines ls) = ls.
Proof.
  induction ls as [|l ls IH]; [reflexivity|].
  cbn [forallb unlines]. intros H.
  apply andb_true_iff in H as [Hl Hls]. unfold plainLine in Hl.
  apply andb_true_iff in Hl as [Hl Hfit]. apply andb_true_iff in Hl as [Hlf Hcr].
  apply negb_true_iff in Hlf, Hcr.
  rewrite (scanLoop_line l "" _ Hlf). cbn [append].
  now rewrite Hfit, (dropCR_plain _ Hcr), (IH Hls).
Qed.

(** C7. With positional arguments the question is the arguments joined
    by single spaces, and standard input is not read; without any it is
    the lines the scanner reads from standard input joined by newlines,
    which for a text of plain lines are the lines of the text.  The
    dispatcher then receives the question itself as its prompt, and the
    command reports the answer it gets for it. *)
Theorem question_is_args_or_stdin (env : Env) (model : string)
    (args : list string) (p : Process) :
  (args <> [] ->
     evalState (deriveQuestion args) p = strings.Join args " " /\
     effects (deriveQuestion args) p = []) /\
  (args = [] ->
     evalState (deriveQuestion args) p
       = strings.Join (scanLoop "" (stdin p)) nl /\
     effects (deriveQuestion args) p = [EvReadStdin]) /\
  (forall ls,
     args = [] -> forallb plainLine ls = true -> stdin p = unlines ls ->
     evalState (deriveQuestion args) p = strings.Join ls nl) /\
  (outResolve env = None ->
   let question := evalState (deriveQuestion args) p in
   strings.TrimSpace question <> "" ->
     evalState (askRunE env model args) p
       = reportResult env question (dispatchAnswer env model question) /\
     effects (askRunE env model args) p
       = (effects (deriveQuestion args) p
            ++ dispatchEvents env model question
            ++ reportEvents env question (dispatchAnswer env model question))%list).
Proof.
  split; [|split; [|split]].
  - intros H. pose proof (run_deriveQuestion_args args p H) as R.
    rewrite <- (log_nil p) in R at 2.
    exact (run_split _ _ _ _ _ R eq_refl).
  - intros ->. exact (run_split _ _ _ _ _ (run_deriveQuestion_stdin p) eq_refl).
  - intros ls -> Hls Hin. unfold evalState.
    rewrite run_deriveQuestion_stdin, Hin. cbn [fst].
    now rewrite (scanLoop_unlines ls Hls).
  - intros Hres question Hq.
    destruct (run_deriveQuestion args p) as (q0 & es & R & Ht & He & _).
    fold question in R.
    pose proof (run_askRunE env model args p _ _ Hres R) as R'.
    apply String.eqb_neq in Hq. rewrite Hq, log_log in R'.
    rewrite He. exact (run_split _ _ _ _ _ R' Ht).
Qed.

Lemma question_is_args_or_stdin_witness :
  (evalState (deriveQuestion ["How"; "do"; "I"; "refactor?"]) (start "unused" EOF)
     = "How do I refactor?" /\
   effects (deriveQuestion ["How"; "do"; "I"; "refactor?"]) (start "unused" EOF)
     = []) /\
  (evalState (deriveQuestion []) (start (unlines ["line1"; "line2"]) EOF)
     = "line1" ++ nl ++ "line2") /\
  (evalState (askRunE jsonMachine "o3" []) (start (unlines ["line1"; "line2"]) EOF)
     = None /\
   effects (askRunE jsonMachine "o3" []) (start (unlines ["line1"; "line2"]) EOF)
     = [EvReadStdin; EvLookPath "claude"; EvLookPath "codex";
        EvOutput "codex" ["ask"; "--model"; "o3"; "line1" ++ nl ++ "line2"];
        EvJSON [("question", "line1" ++ nl ++ "line2"); ("response", "42")]]).
Proof.
  split; [|split].
  - apply (question_is_args_or_stdin jsonMachine "o3"
             ["How"; "do"; "I"; "refactor?"] (start "unused" EOF)).
    discriminate.
  - apply (proj1 (proj2 (proj2
      (question_is_args_or_stdin jsonMachine "o3" []
         (start (unlines ["line1"; "line2"]) EOF)))) ["line1"; "line2"]);
      reflexivity.
  - apply (proj2 (proj2 (proj2
      (question_is_args_or_stdin jsonMachine "o3" []
         (start (unlines ["line1"; "line2"]) EOF))))).
    + reflexivity.
    + discriminate.
Defined.

(** C8. When the question is empty or made of white space only, the ask
    command returns an error, "no question provided" unless the output
    format was refused before; it probes and spawns nothing, its only
    possible effect being the read of standard input. *)
Theorem blank_question_is_refused (env : Env) (model : string)
    (args : list string) (p : Process) :
  let question := evalState (deriveQuestion args) p in
  question = "" \/ strings.allSpace question = true ->
  (exists e, evalState (askRunE env model args) p = Some e) /\
  (outResolve env = None ->
     evalState (askRunE env model args) p
       = Some (errorString "no question provided")) /\
  filter isProviderCall (effects (askRunE env model args) p) = [] /\
  (forall e, In e (effects (askRunE env model args) p) -> e = EvReadStdin).
Proof.
  intros question Hq.
  assert (Hb : strings.TrimSpace question = "").
  { apply TrimSpace_blank. destruct Hq as [->|Hq]; [reflexivity | exact Hq]. }
  destruct (outResolve env) as [e|] eqn:Hres.
  - pose proof (run_askRunE_unresolved env model args p e Hres) as R.
    rewrite <- (log_nil p) in R at 2.
    destruct (run_split _ _ _ _ _ R eq_refl) as [Hr He]. rewrite He, Hr.
    split; [now exists e|]. split; [discriminate|]. split; [reflexivity|].
    intros ? [].
  - destruct (run_deriveQuestion args p) as (q0 & es & R & Ht & He & Hes).
    fold question in R.
    pose proof (run_askRunE env model args p _ _ Hres R) as R'.
    rewrite Hb in R'. cbn [String.eqb] in R'.
    destruct (run_split _ _ _ _ _ R' Ht) as [Hr' He']. rewrite He', Hr'.
    split; [now eexists|]. split; [reflexivity|].
    destruct Hes as [->| ->]; (split; [reflexivity|]).
    + intros ? [].
    + intros ? [<-|[]]. reflexivity.
Qed.

Lemma blank_question_is_refused_witness :
  (exists e, evalState (askRunE bothInstalled "" [" "; noBreakSpace; ideographicSpace]) (start "" EOF)
             = Some e) /\
  (evalState (askRunE bothInstalled "" [" "; noBreakSpace; ideographicSpace]) (start "" EOF)
     = Some (errorString "no question provided")) /\
  filter isProviderCall
    (effects (askRunE bothInstalled "" [" "; noBreakSpace; ideographicSpace]) (start "" EOF)) = [] /\
  (forall e, In e (effects (askRunE bothInstalled "" [" "; noBreakSpace; ideographicSpace]) (start "" EOF)) ->
             e = EvReadStdin).
Proof.
  destruct (blank_question_is_refused bothInstalled "" [" "; noBreakSpace; ideographicSpace] (start "" EOF))
    as (H1 & H2 & H3 & H4).
  - right. reflexivity.
  - split; [exact H1|]. split; [exact (H2 eq_refl)|]. split; [exact H3 | exact H4].
Defined.

(** * Further properties of the command layer *)

(** ** The dispatcher and its bindings *)

Lemma dispatch_selected env model prompt :
  match selected env with
  | Some (name, sub) =>
      dispatchAnswer env model prompt
        = answer (failurePrefix name)
            (cmdOutput env name (sub :: modelFlag model ++ [prompt])%list) /\
      exists probes,
        dispatchEvents env model prompt
          = (probes ++ [EvOutput name (sub :: modelFlag model ++ [prompt])%list])%list /\
        forallb isProbe probes = true
  | None =>
      dispatchAnswer env model prompt = ("", Some noProvider) /\
      dispatchEvents env model prompt = [EvLookPath "claude"; EvLookPath "codex"]
  end.
Proof.
  unfold selected, dispatchAnswer, dispatchEvents.
  destruct (found env "claude"); [|destruct (found env "codex")].
  - split; [reflexivity|]. now exists [EvLookPath "claude"].
  - split; [reflexivity|]. now exists [EvLookPath "claude"; EvLookPath "codex"].
  - now split.
Qed.

Lemma run_askAI_split env prompt model p :
  evalState (askAI env prompt model) p = dispatchAnswer env model prompt /\
  effects (askAI env prompt model) p = dispatchEvents env model prompt.
Proof.
  exact (run_split _ _ _ _ _ (run_askAI_dispatch env prompt model p) eq_refl).
Qed.

(** X1. Whatever the dispatcher returns without an error is stripped of
    surrounding white space already (stripping it again changes nothing),
    and whatever it returns with an error is the empty string. *)
Theorem askAI_response_is_trimmed (env : Env) (prompt model : string)
    (p : Process) :
  match evalState (askAI env prompt model) p with
  | (response, None) => strings.TrimSpace response = response
  | (response, Some _) => response = ""
  end.
Proof.
  rewrite (proj1 (run_askAI_split env prompt model p)).
  pose proof (dispatch_selected env model prompt) as D.
  destruct (selected env) as [[name sub]|].
  - destruct D as [-> _]. unfold answer.
    destruct (cmdOutput env name _) as [out [e|]]; cbn [fst snd].
    + reflexivity.
    + apply TrimSpace_idem.
  - destruct D as [-> _]. reflexivity.
Qed.

(** X2. There is no fallback: when the first provider is on the path and
    its process fails, the dispatcher returns that failure, wrapped as
    "claude failed", having neither probed nor run the second provider,
    whether or not it is installed. *)
Theorem no_fallback_after_failure (env : Env) (prompt model : string)
    (p : Process) (out : string) (e : error) :
  found env "claude" = true ->
  cmdOutput env "claude" ("--print" :: modelFlag model ++ [prompt])%list
    = (out, Some e) ->
  evalState (askAI env prompt model) p
    = ("", Some (wrapError "claude failed: " e)) /\
  Error (wrapError "claude failed: " e) = "claude failed: " ++ Error e /\
  effects (askAI env prompt model) p
    = [EvLookPath "claude";
       EvOutput "claude" ("--print" :: modelFlag model ++ [prompt])%list] /\
  forall ev, In ev (effects (askAI env prompt model) p) ->
             ev <> EvLookPath "codex" /\
             forall args, ev <> EvOutput "codex" args.
Proof.
  intros Hf Ho.
  pose proof (run_askAI env prompt model p) as R. rewrite Hf, Ho in R.
  destruct (run_split _ _ _ _ _ R eq_refl) as [Hr He]. rewrite Hr, He.
  split; [reflexivity|]. split; [reflexivity|]. split; [reflexivity|].
  intros ev [<-|[<-|[]]]; split; intros; discriminate.
Qed.

Lemma no_fallback_after_failure_witness :
  evalState (askAI claudeFails "why?" "") (start "" EOF)
    = ("", Some (wrapError "claude failed: " (exitError "1"))) /\
  found claudeFails "codex" = true /\
  effects (askAI claudeFails "why?" "") (start "" EOF)
    = [EvLookPath "claude"; EvOutput "claude" ["--print"; "why?"]].
Proof.
  destruct (no_fallback_after_failure claudeFails "why?" "" (start "" EOF)
              "partial answer" (exitError "1") eq_refl eq_refl)
    as (H1 & _ & H3 & _).
  split; [exact H1|]. split; [reflexivity | exact H3].
Defined.

(** X3. Every process the dispatcher spawns is a provider given the prompt
    as its last argument, after its subcommand and, only when a model is
    named, the flag [--model] and the model.  The dispatcher spawns at most
    one process, prints nothing and does not touch standard input. *)
Theorem dispatcher_spawn_shape (env : Env) (prompt model : string)
    (p : Process) :
  (forall name args,
     In (EvOutput name args) (effects (askAI env prompt model) p) ->
     (name = "claude" /\ hd "" args = "--print" \/
      name = "codex" /\ hd "" args = "ask") /\
     last args "" = prompt /\
     (model = "" -> args = [hd "" args; prompt]) /\
     (model <> "" -> args = [hd "" args; "--model"; model; prompt])) /\
  List.length (filter isSpawn (effects (askAI env prompt model) p)) <= 1 /\
  filter isReport (effects (askAI env prompt model) p) = [] /\
  filter isStdinRead (effects (askAI env prompt model) p) = [] /\
  stdin (execState (askAI env prompt model) p) = stdin p /\
  (forall name args, ~ In (EvRun name args) (effects (askAI env prompt model) p)).
Proof.
  assert (Hm : (model = "" -> modelFlag model = []) /\
               (model <> "" -> modelFlag model = ["--model"; model])).
  { unfold modelFlag, nonEmpty. destruct (String.eqb_spec model ""); cbn;
      split; intros; congruence. }
  destruct Hm as [Hm0 Hm1].
  rewrite (proj2 (run_askAI_split env prompt model p)).
  assert (Hs : stdin (execState (askAI env prompt model) p) = stdin p).
  { unfold execState. now rewrite run_askAI_dispatch. }
  unfold dispatchEvents.
  destruct (found env "claude"); [|destruct (found env "codex")]; cbn [filter isSpawn isReport isStdinRead List.length];
    (split; [|split; [lia|split; [reflexivity|split; [reflexivity|split; [exact Hs|]]]]]).
  all: try (intros name args Hin; cbn in Hin;
            repeat (destruct Hin as [Hin|Hin]; try discriminate; try contradiction)).
  all: try (intros name args [Hin|[Hin|[Hin|[]]]]; discriminate).
  all: try (intros name args [Hin|[Hin|[]]]; discriminate).
  - inversion Hin; subst. cbn [hd]. split; [left; now split|].
    split; [|split].
    + rewrite app_comm_cons. apply last_last.
    + intros H. now rewrite (Hm0 H).
    + intros H. now rewrite (Hm1 H).
  - inversion Hin; subst. cbn [hd]. split; [right; now split|].
    split; [|split].
    + rewrite app_comm_cons. apply last_last.
    + intros H. now rewrite (Hm0 H).
    + intros H. now rewrite (Hm1 H).
Qed.

Lemma dispatcher_spawn_shape_witness :
  (("codex" = "claude" /\ hd "" ["ask"; "--model"; "o3"; "why?"] = "--print" \/
    "codex" = "codex" /\ hd "" ["ask"; "--model"; "o3"; "why?"] = "ask") /\
   last ["ask"; "--model"; "o3"; "why?"] "" = "why?" /\
   ("o3" = "" -> ["ask"; "--model"; "o3"; "why?"]
                 = [hd "" ["ask"; "--model"; "o3"; "why?"]; "why?"]) /\
   ("o3" <> "" -> ["ask"; "--model"; "o3"; "why?"]
                  = [hd "" ["ask"; "--model"; "o3"; "why?"]; "--model"; "o3"; "why?"])).
Proof.
  apply (proj1 (dispatcher_spawn_shape codexOnly "why?" "o3" (start "" EOF))
           "codex" ["ask"; "--model"; "o3"; "why?"]).
  right. right. left. reflexivity.
Defined.

(** ** The commit command, path by path *)

Lemma accepted_dec line :
  let response := strings.TrimSpace (strings.ToLower line) in
  (negb (String.eqb response "") && negb (String.eqb response "y")
     && negb (String.eqb response "yes") = false /\ accepted line) \/
  (negb (String.eqb response "") && negb (String.eqb response "y")
     && negb (String.eqb response "yes") = true /\ ~ accepted line).
Proof.
  intros response. unfold accepted. fold response.
  destruct (negb (String.eqb response "") && negb (String.eqb response "y")
            && negb (String.eqb response "yes")) eqn:E.
  - right. split; [reflexivity|]. apply declined_iff in E. tauto.
  - left. split; [reflexivity|]. now apply accepted_iff.
Qed.

(** Every run of the commit command takes one of the six paths. *)
Lemma commit_path_total env model dryRun p :
  CommitPath env model dryRun p
    (evalState (commitRunE env model dryRun) p)
    (effects (commitRunE env model dryRun) p).
Proof.
  destruct (cmdOutput env "git" ["diff"; "--cached"]) as [d [e|]] eqn:Hd.
  - destruct (run_split _ _ _ _ _
                (run_commit_diff_failed _ model dryRun p _ _ Hd) eq_refl)
      as [-> ->].
    now apply DiffFailed with (out := d).
  - destruct (String.eqb_spec d "") as [->|Hne].
    + destruct (run_split _ _ _ _ _
                  (run_commit_nothing_staged _ model dryRun p Hd) eq_refl)
        as [-> ->].
      now apply NothingStaged.
    + pose proof (run_commit_staged _ model dryRun p _ Hd Hne) as R.
      destruct (dispatchAnswer env model (commitPrompt (commitDiff d)))
        as [msg [e|]] eqn:Ha.
      * destruct (run_split _ _ _ _ _ R eq_refl) as [-> ->].
        now apply ProviderFailed with (r := msg).
      * destruct dryRun.
        -- rewrite run_confirm_dry, log_log, <- app_assoc in R.
           destruct (run_split _ _ _ _ _ R eq_refl) as [-> ->].
           now apply DryRun.
        -- rewrite run_confirm_interactive in R. cbv zeta in R.
           cbn [stdin log] in R.
           destruct (accepted_dec (fst (cutAfter LF (stdin p))))
             as [[E Hacc]|[E Hacc]]; cbv zeta in E; rewrite E in R;
             rewrite consumeLine_log, log_log, <- !app_assoc in R;
             destruct (run_split _ _ _ _ _ R eq_refl) as [-> ->].
           ++ now apply Confirmed.
           ++ now apply Cancelled.
Qed.

Lemma dispatch_calls env model prompt :
  List.length (filter isProviderCall (dispatchEvents env model prompt)) <= 1 /\
  filter isSpawn (dispatchEvents env model prompt)
    = filter isProviderCall (dispatchEvents env model prompt) /\
  filter isReport (dispatchEvents env model prompt) = [] /\
  (snd (dispatchAnswer env model prompt) = None ->
   List.length (filter isProviderCall (dispatchEvents env model prompt)) = 1).
Proof.
  unfold dispatchEvents, dispatchAnswer.
  destruct (found env "claude"); [|destruct (found env "codex")]; cbn;
    repeat split; try lia; discriminate.
Qed.

(** X4. Every error of the commit command is one of four, each with its
    cause: a failed [git diff], wrapped as "git diff failed"; an empty
    diff, "no staged changes"; a failed dispatch, wrapped as "AI request
    failed"; a failed [git commit], wrapped as "git commit failed", which
    a dry run cannot give. *)
Theorem commit_error_taxonomy (env : Env) (model : string) (dryRun : bool)
    (p : Process) (err : error) :
  evalState (commitRunE env model dryRun) p = Some err ->
  (exists out e,
     cmdOutput env "git" ["diff"; "--cached"] = (out, Some e) /\
     err = wrapError "git diff failed: " e) \/
  (cmdOutput env "git" ["diff"; "--cached"] = ("", None) /\
   err = errorString "no staged changes") \/
  (exists d r e,
     cmdOutput env "git" ["diff"; "--cached"] = (d, None) /\
     evalState (askAI env (commitPrompt (commitDiff d)) model) p = (r, Some e) /\
     err = wrapError "AI request failed: " e) \/
  (exists message e,
     dryRun = false /\
     cmdRun env "git" ["commit"; "-m"; message] = Some e /\
     In (EvRun "git" ["commit"; "-m"; message])
        (effects (commitRunE env model dryRun) p) /\
     err = wrapError "git commit failed: " e).
Proof.
  intros H. pose proof (commit_path_total env model dryRun p) as P.
  rewrite H in P.
  remember (effects (commitRunE env model dryRun) p) as es eqn:Ees.
  remember (Some err) as r eqn:Er.
  destruct P as [out e Hd | Hd | d r0 e Hd Hne Ha | d msg Hd Hne Ha Hdry
                | d msg Hd Hne Ha Hdry Hno | d msg Hd Hne Ha Hdry Hyes];
    try discriminate.
  - left. exists out, e. split; congruence.
  - right. left. split; congruence.
  - right. right. left. exists d, r0, e. split; [exact Hd|]. split; [|congruence].
    now rewrite (proj1 (run_askAI_split _ _ _ _)).
  - right. right. right.
    destruct (cmdRun env "git" ["commit"; "-m"; strings.TrimSpace msg])
      as [e|] eqn:Hc; [|discriminate].
    exists (strings.TrimSpace msg), e. split; [exact Hdry|]. split; [exact Hc|].
    split; [|cbn in Er; congruence].
    rewrite !in_app_iff. right. right. right. now left.
Qed.

Lemma commit_error_taxonomy_witness :
  exists message e,
    false = false /\
    cmdRun commitFails "git" ["commit"; "-m"; message] = Some e /\
    In (EvRun "git" ["commit"; "-m"; message])
       (effects (commitRunE commitFails "" false) (start ("y" ++ nl) EOF)) /\
    wrapError "git commit failed: " (exitError "1")
      = wrapError "git commit failed: " e.
Proof.
  destruct (commit_error_taxonomy commitFails "" false (start ("y" ++ nl) EOF)
              (wrapError "git commit failed: " (exitError "1")) eq_refl)
    as [(out & e & H & _) | [[H _] | [(d & r & e & _ & H & _) | H]]];
    [discriminate H | discriminate H | discriminate H | exact H].
Defined.

(** A successful dispatch is some probes followed by one provider call. *)
Lemma dispatch_call_shape env model prompt :
  snd (dispatchAnswer env model prompt) = None ->
  exists probes call,
    dispatchEvents env model prompt = (probes ++ [call])%list /\
    isProviderCall call = true /\ isCommit call = false /\
    filter isProviderCall probes = [] /\ filter isCommit probes = [].
Proof.
  unfold dispatchAnswer, dispatchEvents.
  destruct (found env "claude"); [|destruct (found env "codex")]; intros H.
  - exists [EvLookPath "claude"]. eexists. repeat split.
  - exists [EvLookPath "claude"; EvLookPath "codex"]. eexists. repeat split.
  - discriminate H.
Qed.

(** How often the commit command does each of its steps. *)
Lemma commit_step_counts (env : Env) (model : string)
    (dryRun : bool) (p : Process) :
  let es := effects (commitRunE env model dryRun) p in
  hd_error es = Some (EvOutput "git" ["diff"; "--cached"]) /\
  List.length (filter isProviderCall es) <= 1 /\
  List.length (filter isStdinRead es) <= 1 /\
  List.length (filter isCommit es) <= 1 /\
  List.length (filter isSpawn es) <= 3 /\
  (filter isCommit es <> [] ->
   dryRun = false /\ List.length (filter isProviderCall es) = 1).
Proof.
  intros es. subst es.
  destruct (commit_path_total env model dryRun p)
    as [out e Hd | Hd | d r0 e Hd Hne Ha | d msg Hd Hne Ha Hdry
       | d msg Hd Hne Ha Hdry Hno | d msg Hd Hne Ha Hdry Hyes].
  1, 2: cbn; repeat split; try lia; intros; exfalso; congruence.
  all: destruct (dispatch_calls env model (commitPrompt (commitDiff d)))
         as (Hle & Hsp & _ & Hone);
       rewrite ?Ha in Hone; cbn [snd] in Hone;
       rewrite !filter_app, dispatch_no_commit, dispatch_no_read, Hsp;
       cbn [diffEvents askEvents filter isProviderCall isStdinRead isCommit
              isSpawn String.eqb Ascii.eqb Bool.eqb orb andb app List.length
              hd_error];
       rewrite ?length_app; cbn [List.length];
       repeat split; try lia; try (intros; exfalso; congruence).
  - exact Hdry.
  - rewrite (Hone eq_refl). lia.
Qed.

(** X5. Whatever the machine and the input, the commit command starts by
    running [git diff --cached], calls a provider at most once, reads
    standard input at most once and runs [git commit] at most once.  When
    it runs [git commit] it is outside a dry run, the commit is its last
    effect, and exactly one provider call came before it. *)
Theorem commit_does_each_step_once (env : Env) (model : string)
    (dryRun : bool) (p : Process) :
  let es := effects (commitRunE env model dryRun) p in
  hd_error es = Some (EvOutput "git" ["diff"; "--cached"]) /\
  List.length (filter isProviderCall es) <= 1 /\
  List.length (filter isStdinRead es) <= 1 /\
  List.length (filter isCommit es) <= 1 /\
  List.length (filter isSpawn es) <= 3 /\
  (filter isCommit es <> [] ->
   dryRun = false /\
   List.length (filter isProviderCall es) = 1 /\
   exists before call between message,
     es = (before ++ call :: between
             ++ [EvRun "git" ["commit"; "-m"; message]])%list /\
     isProviderCall call = true /\
     filter isProviderCall before = [] /\
     filter isProviderCall between = [] /\
     filter isCommit (before ++ call :: between) = []).
Proof.
  intros es. subst es.
  destruct (commit_step_counts env model dryRun p)
    as (H1 & H2 & H3 & H4 & H5 & H6).
  repeat (split; [assumption|]).
  intros Hc. destruct (H6 Hc) as [Hdry Hone].
  split; [exact Hdry|]. split; [exact Hone|].
  clear H1 H2 H3 H4 H5 H6 Hone. revert Hc.
  destruct (commit_path_total env model dryRun p)
    as [out e Hd | Hd | d r0 e Hd Hne Ha | d msg Hd Hne Ha Hdry'
       | d msg Hd Hne Ha Hdry' Hno | d msg Hd Hne Ha Hdry' Hyes];
    intros Hc;
    try (exfalso; apply Hc;
         rewrite ?filter_app, ?dispatch_no_commit; reflexivity).
  destruct (dispatch_call_shape env model (commitPrompt (commitDiff d)))
    as (probes & call & Hev & Hcall & Hnc & Hp & Hpc);
    [now rewrite Ha|].
  exists (diffEvents ++ probes)%list, call,
         (askEvents (strings.TrimSpace msg)), (strings.TrimSpace msg).
  split; [rewrite Hev, <- !app_assoc; reflexivity|].
  split; [exact Hcall|].
  split; [rewrite filter_app, Hp; reflexivity|].
  split; [reflexivity|].
  rewrite !filter_app, Hpc. cbn [filter]. rewrite Hnc. reflexivity.
Qed.

Lemma commit_does_each_step_once_witness :
  false = false /\
  List.length
    (filter isProviderCall
       (effects (commitRunE bothInstalled "" false) (start ("y" ++ nl) EOF))) = 1 /\
  exists before call between message,
    effects (commitRunE bothInstalled "" false) (start ("y" ++ nl) EOF)
      = (before ++ call :: between
           ++ [EvRun "git" ["commit"; "-m"; message]])%list /\
    isProviderCall call = true /\
    filter isProviderCall before = [] /\
    filter isProviderCall between = [] /\
    filter isCommit (before ++ call :: between) = [].
Proof.
  apply (commit_does_each_step_once bothInstalled "" false (start ("y" ++ nl) EOF)).
  vm_compute. discriminate.
Defined.

(** X6. When the dispatcher fails in the commit flow (a provider that
    fails, or none installed), the command returns that error wrapped as
    "AI request failed"; it has printed its progress line and nothing
    else, has not read standard input and has not committed. *)
Theorem commit_stops_when_dispatch_fails (env : Env) (model : string)
    (dryRun : bool) (p : Process) (d r : string) (e : error) :
  cmdOutput env "git" ["diff"; "--cached"] = (d, None) -> d <> "" ->
  evalState (askAI env (commitPrompt (commitDiff d)) model) p = (r, Some e) ->
  let es := effects (commitRunE env model dryRun) p in
  evalState (commitRunE env model dryRun) p
    = Some (wrapError "AI request failed: " e) /\
  Error (wrapError "AI request failed: " e) = "AI request failed: " ++ Error e /\
  es = (diffEvents ++ effects (askAI env (commitPrompt (commitDiff d)) model) p)%list /\
  filter isReport es = [EvPrint ("Generating commit message..." ++ nl)] /\
  filter isStdinRead es = [] /\
  filter isCommit es = [].
Proof.
  intros Hd Hne Ha es. subst es.
  destruct (run_askAI_split env (commitPrompt (commitDiff d)) model p)
    as [Hans Hev]. rewrite Hans in Ha. rewrite Hev.
  pose proof (run_commit_staged env model dryRun p d Hd Hne) as R.
  rewrite Ha in R.
  destruct (run_split _ _ _ _ _ R eq_refl) as [-> ->].
  destruct (dispatch_calls env model (commitPrompt (commitDiff d)))
    as (_ & _ & Hrep & _).
  rewrite !filter_app, Hrep, dispatch_no_read, dispatch_no_commit.
  repeat split; reflexivity.
Qed.

Lemma commit_stops_when_dispatch_fails_witness :
  evalState (commitRunE claudeFails "" false) (start ("y" ++ nl) EOF)
    = Some (wrapError "AI request failed: "
              (wrapError "claude failed: " (exitError "1"))) /\
  Error (wrapError "AI request failed: "
           (wrapError "claude failed: " (exitError "1")))
    = "AI request failed: " ++ Error (wrapError "claude failed: " (exitError "1")) /\
  effects (commitRunE claudeFails "" false) (start ("y" ++ nl) EOF)
    = (diffEvents ++
       effects (askAI claudeFails (commitPrompt (commitDiff shortDiff)) "")
         (start ("y" ++ nl) EOF))%list /\
  filter isReport
    (effects (commitRunE claudeFails "" false) (start ("y" ++ nl) EOF))
    = [EvPrint ("Generating commit message..." ++ nl)] /\
  filter isStdinRead
    (effects (commitRunE claudeFails "" false) (start ("y" ++ nl) EOF)) = [] /\
  filter isCommit
    (effects (commitRunE claudeFails "" false) (start ("y" ++ nl) EOF)) = [].
Proof.
  apply (commit_stops_when_dispatch_fails claudeFails "" false
           (start ("y" ++ nl) EOF) shortDiff "").
  - reflexivity.
  - discriminate.
  - reflexivity.
Defined.

(** The commit flow once the selected provider has answered. *)
Lemma commit_path_with_answer env model dryRun p d name sub out :
  cmdOutput env "git" ["diff"; "--cached"] = (d, None) -> d <> "" ->
  selected env = Some (name, sub) ->
  cmdOutput env name (sub :: modelFlag model ++ [commitPrompt (commitDiff d)])%list
    = (out, None) ->
  exists r es,
    CommitPath env model dryRun p r es /\
    r = evalState (commitRunE env model dryRun) p /\
    es = effects (commitRunE env model dryRun) p /\
    dispatchAnswer env model (commitPrompt (commitDiff d))
      = (strings.TrimSpace out, None).
Proof.
  intros Hd Hne Hsel Hout.
  exists (evalState (commitRunE env model dryRun) p),
         (effects (commitRunE env model dryRun) p).
  split; [apply commit_path_total|]. split; [reflexivity|]. split; [reflexivity|].
  pose proof (dispatch_selected env model (commitPrompt (commitDiff d))) as D.
  rewrite Hsel in D. destruct D as [-> _]. unfold answer. now rewrite Hout.
Qed.

(** X7. The message the commit flow shows and commits is the standard
    output of the selected provider stripped of surrounding white space,
    and nothing else: a dry run prints it, an accepted confirmation passes
    it to [git commit -m]. *)
Theorem commit_message_is_provider_output (env : Env) (model : string)
    (p : Process) (d name sub out : string) :
  cmdOutput env "git" ["diff"; "--cached"] = (d, None) -> d <> "" ->
  selected env = Some (name, sub) ->
  cmdOutput env name (sub :: modelFlag model ++ [commitPrompt (commitDiff d)])%list
    = (out, None) ->
  filter isReport (effects (commitRunE env model true) p)
    = [EvPrint ("Generating commit message..." ++ nl);
       EvPrint (suggested (strings.TrimSpace out))] /\
  (accepted (fst (cutAfter LF (stdin p))) ->
   filter isCommit (effects (commitRunE env model false) p)
     = [EvRun "git" ["commit"; "-m"; strings.TrimSpace out]]).
Proof.
  intros Hd Hne Hsel Hout.
  destruct (dispatch_calls env model (commitPrompt (commitDiff d)))
    as (_ & _ & Hrep & _).
  split.
  - destruct (commit_path_with_answer env model true p d name sub out
                Hd Hne Hsel Hout) as (r & es & P & _ & <- & Ha).
    destruct P as [? ? Hd' | Hd' | ? ? ? Hd' _ Ha' | d' msg Hd' _ Ha' _
                  | ? ? _ _ _ Hdry | ? ? _ _ _ Hdry];
      try congruence.
    assert (d' = d) by congruence. subst d'.
    assert (msg = strings.TrimSpace out) by congruence. subst msg.
    rewrite !filter_app, Hrep, TrimSpace_idem. reflexivity.
  - intros Hyes.
    destruct (commit_path_with_answer env model false p d name sub out
                Hd Hne Hsel Hout) as (r & es & P & _ & <- & Ha).
    destruct P as [? ? Hd' | Hd' | ? ? ? Hd' _ Ha' | ? ? _ _ _ Hdry
                  | ? ? _ _ _ _ Hno | d' msg Hd' _ Ha' _ _];
      try congruence; try contradiction.
    assert (d' = d) by congruence. subst d'.
    assert (msg = strings.TrimSpace out) by congruence. subst msg.
    rewrite !filter_app, dispatch_no_commit, TrimSpace_idem. reflexivity.
Qed.

Lemma commit_message_is_provider_output_witness :
  filter isReport
    (effects (commitRunE codexOnly "o3" true) (start ("Yes" ++ nl) EOF))
    = [EvPrint ("Generating commit message..." ++ nl);
       EvPrint (suggested (strings.TrimSpace (" feat: add f" ++ nl)))] /\
  filter isCommit
    (effects (commitRunE codexOnly "o3" false) (start ("Yes" ++ nl) EOF))
    = [EvRun "git" ["commit"; "-m"; strings.TrimSpace (" feat: add f" ++ nl)]].
Proof.
  destruct (commit_message_is_provider_output codexOnly "o3"
              (start ("Yes" ++ nl) EOF) shortDiff "codex" "ask"
              (" feat: add f" ++ nl))
    as [H1 H2]; try reflexivity; try discriminate.
  split; [exact H1|]. apply H2. right. right. reflexivity.
Defined.

(** X8. An empty message is not refused: when the provider answers with
    white space only and the user accepts, the command runs
    [git commit -m] with the empty string, and returns what it returns. *)
Theorem blank_message_is_committed (env : Env) (model : string)
    (p : Process) (d name sub out : string) :
  cmdOutput env "git" ["diff"; "--cached"] = (d, None) -> d <> "" ->
  selected env = Some (name, sub) ->
  cmdOutput env name (sub :: modelFlag model ++ [commitPrompt (commitDiff d)])%list
    = (out, None) ->
  strings.allSpace out = true ->
  accepted (fst (cutAfter LF (stdin p))) ->
  filter isCommit (effects (commitRunE env model false) p)
    = [EvRun "git" ["commit"; "-m"; ""]] /\
  evalState (commitRunE env model false) p
    = commitResult (cmdRun env "git" ["commit"; "-m"; ""]).
Proof.
  intros Hd Hne Hsel Hout Hblank Hyes.
  apply TrimSpace_blank in Hblank.
  destruct (commit_path_with_answer env model false p d name sub out
              Hd Hne Hsel Hout) as (r & es & P & <- & <- & Ha).
  destruct P as [? ? Hd' | Hd' | ? ? ? Hd' _ Ha' | ? ? _ _ _ Hdry
                | ? ? _ _ _ _ Hno | d' msg Hd' _ Ha' _ _];
    try congruence; try contradiction.
  assert (d' = d) by congruence. subst d'.
  assert (msg = strings.TrimSpace out) by congruence. subst msg.
  rewrite !filter_app, dispatch_no_commit, TrimSpace_idem, Hblank.
  split; reflexivity.
Qed.

Lemma blank_message_is_committed_witness :
  filter isCommit (effects (commitRunE blankReply "" false) (start nl EOF))
    = [EvRun "git" ["commit"; "-m"; ""]] /\
  evalState (commitRunE blankReply "" false) (start nl EOF)
    = commitResult (cmdRun blankReply "git" ["commit"; "-m"; ""]).
Proof.
  apply (blank_message_is_committed blankReply "" (start nl EOF) shortDiff
           "codex" "ask" ("  " ++ nl));
    try reflexivity; try discriminate.
  left. reflexivity.
Defined.

Lemma cutAfter_line line rest :
  hasByte LF line = false ->
  cutAfter LF (line ++ nl ++ rest) = (line ++ nl, Some rest).
Proof.
  induction line as [|c l IH]; cbn; [reflexivity|].
  intros H. apply orb_false_iff in H as [Hc Hl].
  rewrite Hc. cbn in IH. now rewrite (IH Hl).
Qed.

(** The commit command sees standard input through its first line only. *)
Lemma commit_outcome_by_line env model dryRun line :
  exists r es, forall p,
    fst (cutAfter LF (stdin p)) = line ->
    evalState (commitRunE env model dryRun) p = r /\
    effects (commitRunE env model dryRun) p = es.
Proof.
  destruct (cmdOutput env "git" ["diff"; "--cached"]) as [d [e|]] eqn:Hd.
  - eexists _, _. intros p _.
    exact (run_split _ _ _ _ _
             (run_commit_diff_failed _ model dryRun p _ _ Hd) eq_refl).
  - destruct (String.eqb_spec d "") as [->|Hne].
    + eexists _, _. intros p _.
      exact (run_split _ _ _ _ _
               (run_commit_nothing_staged _ model dryRun p Hd) eq_refl).
    + destruct (dispatchAnswer env model (commitPrompt (commitDiff d)))
        as [msg [e|]] eqn:Ha.
      * eexists _, _. intros p _.
        pose proof (run_commit_staged _ model dryRun p _ Hd Hne) as R.
        rewrite Ha in R. exact (run_split _ _ _ _ _ R eq_refl).
      * destruct dryRun.
        -- eexists _, _. intros p _.
           pose proof (run_commit_staged _ model true p _ Hd Hne) as R.
           rewrite Ha, run_confirm_dry, log_log in R.
           exact (run_split _ _ _ _ _ R eq_refl).
        -- destruct (accepted_dec line) as [[E _]|[E _]]; cbv zeta in E;
             eexists _, _; intros p Hl;
             pose proof (run_commit_staged _ model false p _ Hd Hne) as R;
             rewrite Ha, run_confirm_interactive in R; cbv zeta in R;
             cbn [stdin log] in R; rewrite Hl, E in R;
             rewrite consumeLine_log, log_log in R;
             exact (run_split _ _ _ _ _ R eq_refl).
Qed.

(** X9. The confirmation is the first line of standard input: what
    follows its newline, and how the input ends, changes neither the
    result of the commit command nor anything it does. *)
Theorem only_first_line_counts (env : Env) (model : string) (dryRun : bool)
    (p p' : Process) (line rest rest' : string) :
  hasByte LF line = false ->
  stdin p = line ++ nl ++ rest ->
  stdin p' = line ++ nl ++ rest' ->
  evalState (commitRunE env model dryRun) p
    = evalState (commitRunE env model dryRun) p' /\
  effects (commitRunE env model dryRun) p
    = effects (commitRunE env model dryRun) p'.
Proof.
  intros Hl Hp Hp'.
  destruct (commit_outcome_by_line env model dryRun (line ++ nl))
    as (r & es & H).
  destruct (H p) as [-> ->]; [now rewrite Hp, cutAfter_line|].
  destruct (H p') as [-> ->]; [now rewrite Hp', cutAfter_line|].
  now split.
Qed.

Lemma only_first_line_counts_witness :
  evalState (commitRunE bothInstalled "" false) (start ("y" ++ nl ++ "no") EOF)
    = evalState (commitRunE bothInstalled "" false)
        (start ("y" ++ nl ++ "") (exitError "1")) /\
  effects (commitRunE bothInstalled "" false) (start ("y" ++ nl ++ "no") EOF)
    = effects (commitRunE bothInstalled "" false)
        (start ("y" ++ nl ++ "") (exitError "1")).
Proof.
  apply (only_first_line_counts bothInstalled "" false
           (start ("y" ++ nl ++ "no") EOF)
           (start ("y" ++ nl ++ "") (exitError "1")) "y" "no" "");
    reflexivity.
Defined.

(** X10. The prompt of the commit flow is the 286 bytes of the template
    around the diff handed to it, which is the staged diff or, cut, 10,016
    bytes: whatever is staged, the prompt has at most 10,302 bytes. *)
Theorem commit_prompt_is_bounded (d : string) :
  len (commitPrompt (commitDiff d)) = (286 + len (commitDiff d))%N /\
  len (commitDiff d) = (if (10000 <? len d)%N then 10016%N else len d) /\
  (len (commitPrompt (commitDiff d)) <= 10302)%N.
Proof.
  assert (Hp : forall x, len (commitPrompt x) = (286 + len x)%N).
  { intros x.
    assert (Hn : String.length (commitPrompt x) = 286 + String.length x).
    { unfold commitPrompt. rewrite !length_append.
      cbn [String.length nl]. lia. }
    unfold len. rewrite Hn. lia. }
  assert (Hc : len (commitDiff d)
               = (if (10000 <? len d)%N then 10016%N else len d)).
  { unfold commitDiff. destruct (N.ltb_spec 10000 (len d)) as [H|H];
      [|reflexivity].
    assert (Hm : String.length truncationMarker = 16) by reflexivity.
    unfold len, sliceTo in *.
    rewrite length_append, substring_length, Hm by lia. lia. }
  split; [apply Hp|]. split; [exact Hc|].
  rewrite Hp, Hc. destruct (N.ltb_spec 10000 (len d)); lia.
Qed.

(** ** The ask command, path by path *)

(** Every run of the ask command takes one of the three paths. *)
Lemma ask_path_total env model args p :
  AskPath env model args p
    (evalState (askRunE env model args) p)
    (effects (askRunE env model args) p).
Proof.
  destruct (outResolve env) as [e|] eqn:Hres.
  - pose proof (run_askRunE_unresolved env model args p e Hres) as R.
    rewrite <- (log_nil p) in R at 2.
    destruct (run_split _ _ _ _ _ R eq_refl) as [-> ->].
    now apply Unresolved.
  - destruct (run_deriveQuestion args p) as (q0 & es & R & Ht & He & _).
    pose proof (run_askRunE env model args p _ _ Hres R) as R'.
    destruct (String.eqb_spec
                (strings.TrimSpace (evalState (deriveQuestion args) p)) "")
      as [Hb|Hb].
    + destruct (run_split _ _ _ _ _ R' Ht) as [-> ->]. rewrite <- He.
      now apply NoQuestion.
    + rewrite log_log in R'.
      destruct (run_split _ _ _ _ _ R' Ht) as [-> ->]. rewrite <- He.
      now apply Asked.
Qed.

Lemma question_effects args p :
  (args <> [] -> effects (deriveQuestion args) p = []) /\
  (effects (deriveQuestion args) p = [] \/
   effects (deriveQuestion args) p = [EvReadStdin]).
Proof.
  destruct (run_deriveQuestion args p) as (q0 & es & R & Ht & He & Hes).
  split; [|now rewrite He].
  intros Hne. pose proof (run_deriveQuestion_args args p Hne) as R0.
  rewrite <- (log_nil p) in R0 at 2.
  exact (proj2 (run_split _ _ _ _ _ R0 eq_refl)).
Qed.

Lemma report_calls env question ans :
  List.length (filter isReport (reportEvents env question ans)) <= 1 /\
  filter isSpawn (reportEvents env question ans) = [] /\
  filter isStdinRead (reportEvents env question ans) = [] /\
  (snd ans <> None -> reportEvents env question ans = []).
Proof.
  unfold reportEvents. destruct ans as [r [e|]]; cbn.
  - repeat split; lia.
  - destruct (outIsJSON env); cbn; repeat split; try lia; congruence.
Qed.

(** X11. Every error of the ask command is one of four, in this order of
    precedence: the output options could not be resolved; no question was
    given; the dispatcher failed, and its error is returned as it is,
    with nothing printed; the JSON rendering of the answer failed. *)
Theorem ask_error_taxonomy (env : Env) (model : string) (args : list string)
    (p : Process) (err : error) :
  evalState (askRunE env model args) p = Some err ->
  let question := evalState (deriveQuestion args) p in
  (outResolve env = Some err /\ effects (askRunE env model args) p = []) \/
  (outResolve env = None /\
   strings.TrimSpace question = "" /\
   err = errorString "no question provided") \/
  (outResolve env = None /\
   strings.TrimSpace question <> "" /\
   (exists r, evalState (askAI env question model) p = (r, Some err)) /\
   filter isReport (effects (askRunE env model args) p) = []) \/
  (outResolve env = None /\
   strings.TrimSpace question <> "" /\
   outIsJSON env = true /\
   exists r,
     evalState (askAI env question model) p = (r, None) /\
     outJSON env [("question", question); ("response", r)] = Some err).
Proof.
  intros H question. subst question.
  pose proof (ask_path_total env model args p) as P.
  rewrite H in P.
  remember (effects (askRunE env model args) p) as es eqn:Ees.
  remember (Some err) as res eqn:Er.
  destruct P as [e Hres | Hres Hb | Hres Hb].
  - left. split; congruence.
  - right. left. repeat split; congruence.
  - right. right.
    set (question := evalState (deriveQuestion args) p) in *.
    rewrite (proj1 (run_askAI_split env question model p)).
    destruct (dispatchAnswer env model question) as [r [e|]] eqn:Ha;
      cbn [reportResult reportEvents] in Er |- *.
    + left. split; [exact Hres|]. split; [exact Hb|]. split.
      * exists r. congruence.
      * destruct (question_effects args p) as [_ [-> | ->]];
          destruct (dispatch_calls env model question) as (_ & _ & Hrep & _);
          rewrite !filter_app, Hrep; reflexivity.
    + right. destruct (outIsJSON env) eqn:Hj; [|discriminate].
      split; [exact Hres|]. split; [exact Hb|]. split; [reflexivity|].
      exists r. split; [reflexivity | congruence].
Qed.

Lemma ask_error_taxonomy_witness :
  exists r,
    evalState (askAI claudeFails "why?" "") (start "" EOF)
      = (r, Some (wrapError "claude failed: " (exitError "1"))).
Proof.
  destruct (ask_error_taxonomy claudeFails "" ["why?"] (start "" EOF)
              (wrapError "claude failed: " (exitError "1")) eq_refl)
    as [[H _] | [(_ & _ & H) | [(_ & _ & H & _) | (_ & _ & H & _)]]];
    [discriminate H | discriminate H | exact H | discriminate H].
Defined.

(** X12. Whatever the machine and the input, the ask command reads
    standard input at most once and only without arguments, spawns at
    most one process, which is a provider (never [git]), and reports at
    most one answer, which it does only when the dispatcher succeeded. *)
Theorem ask_does_each_step_once (env : Env) (model : string)
    (args : list string) (p : Process) :
  let es := effects (askRunE env model args) p in
  let question := evalState (deriveQuestion args) p in
  List.length (filter isStdinRead es) <= 1 /\
  (args <> [] -> filter isStdinRead es = []) /\
  List.length (filter isSpawn es) <= 1 /\
  filter isSpawn es = filter isProviderCall es /\
  List.length (filter isReport es) <= 1 /\
  (filter isReport es <> [] ->
   exists r, evalState (askAI env question model) p = (r, None)).
Proof.
  intros es question. subst es.
  destruct (question_effects args p) as [Hargs Hq].
  destruct (ask_path_total env model args p) as [e Hres | Hres Hb | Hres Hb].
  - cbn. repeat split; try lia; intros; exfalso; congruence.
  - destruct Hq as [Hq | Hq]; rewrite Hq in *; cbn;
      repeat split; try lia; try (intros; exfalso; congruence).
    intros Hne. specialize (Hargs Hne). discriminate.
  - fold question.
    destruct (dispatch_calls env model question) as (Hle & Hsp & Hrep & _).
    destruct (report_calls env question (dispatchAnswer env model question))
      as (Hr1 & Hr2 & Hr3 & Hr4).
    assert (Hprov : filter isProviderCall
                      (reportEvents env question
                         (dispatchAnswer env model question)) = []).
    { unfold reportEvents.
      destruct (dispatchAnswer env model question) as [r [e|]];
        [|destruct (outIsJSON env)]; reflexivity. }
    rewrite !filter_app, dispatch_no_read, Hsp, Hrep, Hr2, Hr3, Hprov.
    rewrite !app_nil_r.
    assert (Hqs : filter isSpawn (effects (deriveQuestion args) p) = [] /\
                  filter isProviderCall (effects (deriveQuestion args) p) = [] /\
                  filter isReport (effects (deriveQuestion args) p) = [] /\
                  List.length (filter isStdinRead
                                 (effects (deriveQuestion args) p)) <= 1).
    { destruct Hq as [-> | ->]; cbn; repeat split; lia. }
    destruct Hqs as (-> & -> & -> & Hone).
    cbn [app]. split; [exact Hone|]. split.
    { intros Hne. now rewrite (Hargs Hne). }
    split; [exact Hle|]. split; [reflexivity|]. split; [exact Hr1|].
    intros Hrep'.
    rewrite (proj1 (run_askAI_split env question model p)).
    destruct (dispatchAnswer env model question) as [r [e|]] eqn:Ha.
    + exfalso. apply Hrep'. now rewrite Hr4.
    + now exists r.
Qed.

Lemma ask_does_each_step_once_witness :
  filter isStdinRead
    (effects (askRunE jsonMachine "" ["why?"]) (start "unused" EOF)) = [] /\
  exists r, evalState (askAI jsonMachine "why?" "") (start "unused" EOF)
            = (r, None).
Proof.
  destruct (ask_does_each_step_once jsonMachine "" ["why?"] (start "unused" EOF))
    as (_ & H2 & _ & _ & _ & H6).
  split.
  - apply H2. discriminate.
  - apply H6. vm_compute. discriminate.
Defined.



(** ** The question read from standard input *)

Lemma endsWith_cons c a s :
  endsWith c (String a s) = false -> s <> "" -> endsWith c s = false.
Proof. destruct s; [congruence | cbn; auto]. Qed.

(** A newline added to an input that does not end with one gives the
    scanner the same lines, unless there was nothing to scan. *)
Lemma scanLoop_final_newline rest : forall cur,
  endsWith LF rest = false ->
  cur <> "" \/ rest <> "" ->
  scanLoop cur (rest ++ nl) = scanLoop cur rest.
Proof.
  induction rest as [|c r IH]; intros cur Hend Hne.
  - destruct Hne as [Hne|Hne]; [|congruence].
    destruct cur; [congruence | reflexivity].
  - cbn [append scanLoop].
    destruct (Ascii.eqb_spec c LF) as [->|Hc].
    + destruct r as [|c' r']; [discriminate Hend|].
      rewrite IH; [reflexivity | exact Hend | right; discriminate].
    + apply IH.
      * destruct r; [reflexivity | exact Hend].
      * left. destruct cur; discriminate.
Qed.

(** X14. A newline at the end of standard input does not change the
    question: an input that does not end with a newline and the same
    input followed by one give the same question. *)
Theorem final_newline_is_dropped (p p' : Process) :
  endsWith LF (stdin p) = false ->
  stdin p' = stdin p ++ nl ->
  evalState (deriveQuestion []) p' = evalState (deriveQuestion []) p.
Proof.
  intros Hend Hp'. unfold evalState.
  rewrite !run_deriveQuestion_stdin, Hp'. cbn [fst].
  destruct (stdin p) as [|c s] eqn:Es.
  - reflexivity.
  - rewrite scanLoop_final_newline; [reflexivity | exact Hend |].
    right. discriminate.
Qed.

Lemma final_newline_is_dropped_witness :
  evalState (deriveQuestion []) (start ("why?" ++ nl) EOF)
    = evalState (deriveQuestion []) (start "why?" EOF).
Proof.
  apply (final_newline_is_dropped (start "why?" EOF) (start ("why?" ++ nl) EOF));
    reflexivity.
Defined.

Lemma scanLoop_unlines_app ls tail :
  forallb plainLine ls = true ->
  scanLoop "" (unlines ls ++ tail) = (ls ++ scanLoop "" tail)%list.
Proof.
  induction ls as [|l ls IH]; [reflexivity|].
  cbn [forallb unlines]. intros H.
  apply andb_true_iff in H as [Hl Hls]. unfold plainLine in Hl.
  apply andb_true_iff in Hl as [Hl Hfit]. apply andb_true_iff in Hl as [Hlf Hcr].
  apply negb_true_iff in Hlf, Hcr.
  rewrite !append_assoc_r, (scanLoop_line l "" _ Hlf). cbn [append].
  now rewrite Hfit, (dropCR_plain _ Hcr), (IH Hls).
Qed.

(** X15. A line of 65,536 bytes or more ends the reading without an
    error: the question is made of the lines before it, and that line
    and all that follows are dropped.  When it is the first line there is
    no question, and the command fails with "no question provided". *)
Theorem long_line_cuts_question (env : Env) (model : string) (p : Process)
    (ls : list string) (long rest : string) :
  forallb plainLine ls = true ->
  hasByte LF long = false ->
  tokenFits long = false ->
  stdin p = unlines ls ++ long ++ nl ++ rest ->
  evalState (deriveQuestion []) p = strings.Join ls nl /\
  (ls = [] -> outResolve env = None ->
   evalState (askRunE env model []) p
     = Some (errorString "no question provided")).
Proof.
  intros Hls Hlf Hfit Hin.
  assert (Hq : evalState (deriveQuestion []) p = strings.Join ls nl).
  { unfold evalState. rewrite run_deriveQuestion_stdin, Hin. cbn [fst].
    rewrite (scanLoop_unlines_app ls _ Hls), (scanLoop_line long "" _ Hlf).
    cbn [append]. now rewrite Hfit, app_nil_r. }
  split; [exact Hq|].
  intros -> Hres.
  destruct (run_deriveQuestion [] p) as (q0 & es & R & _).
  pose proof (run_askRunE env model [] p _ _ Hres R) as R'.
  rewrite Hq in R'. cbn in R'. unfold evalState. now rewrite R'.
Qed.

Lemma long_line_cuts_question_witness :
  evalState (deriveQuestion [])
    (start (unlines ["why?"] ++ longLine ++ nl ++ "because") EOF)
    = strings.Join ["why?"] nl /\
  evalState (askRunE bothInstalled "" [])
    (start (unlines [] ++ longLine ++ nl ++ "why?") EOF)
    = Some (errorString "no question provided").
Proof.
  split.
  - apply (long_line_cuts_question bothInstalled ""
             (start (unlines ["why?"] ++ longLine ++ nl ++ "because") EOF)
             ["why?"] longLine "because").
    + reflexivity.
    + vm_compute. reflexivity.
    + vm_compute. reflexivity.
    + reflexivity.
  - apply (long_line_cuts_question bothInstalled ""
             (start (unlines [] ++ longLine ++ nl ++ "why?") EOF)
             [] longLine "why?").
    + reflexivity.
    + vm_compute. reflexivity.
    + vm_compute. reflexivity.
    + reflexivity.
    + reflexivity.
    + reflexivity.
Defined.
